(** * OpenVPN control-channel packet layer: frame geometry, opcodes, DCO stubs

    Shallow embedding of [src/openvpn/mtu.h], [src/openvpn/ssl_pkt.h] and
    [src/openvpn/dco.h].

    Conventions.
    - A C [int] is a [Z] kept in the range [INT_MIN .. INT_MAX]; every
      arithmetic operation on [int] is followed by [int_wrap], the
      two's-complement wrap-around to 32 bits.  ISO C leaves signed overflow
      undefined; wherever a theorem needs the mathematical result it says
      that the result fits in an [int], which is exactly the case in which
      the C expression is defined.
    - [unsigned int] and [uint8_t] are [Z] reduced modulo [2^32] and [2^8].
    - A byte buffer is a [list Z] of values in [0 .. 255]. *)

From Stdlib Require Import ZArith Bool String Ascii List Lia.
Import ListNotations.
Open Scope Z_scope.

(** ** Machine integers *)

Module CInt.

Definition INT_MAX : Z := 2147483647.
Definition INT_MIN : Z := -2147483648.
Definition int_modulus : Z := 4294967296.

(** Two's-complement reduction of a mathematical integer to a C [int]. *)
Definition int_wrap (z : Z) : Z :=
  (z - INT_MIN) mod int_modulus + INT_MIN.

Definition int_add (a b : Z) : Z := int_wrap (a + b).
Definition int_sub (a b : Z) : Z := int_wrap (a - b).

Definition in_int (z : Z) : Prop := INT_MIN <= z <= INT_MAX.

(** Reduction to [unsigned int] and to [uint8_t]. *)
Definition uint_wrap (z : Z) : Z := z mod int_modulus.
Definition u8_wrap (z : Z) : Z := Z.land z 255.

End CInt.

Import CInt.

(** ** Frame geometry ([mtu.h]) *)

Module Mtu.

Definition PAYLOAD_ALIGN : Z := 4.
Definition TUN_MTU_MIN : Z := 100.

(** [struct frame]. *)
Record frame : Type := mk_frame
  { link_mtu : Z;
    mss_fix : Z;
    link_mtu_dynamic : Z;
    extra_frame : Z;
    extra_buffer : Z;
    extra_tun : Z;
    extra_link : Z }.

(** The reading macros of [mtu.h]. *)
Definition EXTRA_FRAME (f : frame) : Z := extra_frame f.
Definition TUN_LINK_DELTA (f : frame) : Z := int_add (extra_frame f) (extra_tun f).
Definition TUN_MTU_SIZE (f : frame) : Z := int_sub (link_mtu f) (TUN_LINK_DELTA f).
Definition PAYLOAD_SIZE (f : frame) : Z := int_sub (link_mtu f) (extra_frame f).
Definition PAYLOAD_SIZE_DYNAMIC (f : frame) : Z :=
  int_sub (link_mtu_dynamic f) (extra_frame f).
Definition EXPANDED_SIZE (f : frame) : Z := link_mtu f.
Definition EXPANDED_SIZE_DYNAMIC (f : frame) : Z := link_mtu_dynamic f.
Definition EXPANDED_SIZE_MIN (f : frame) : Z := int_add TUN_MTU_MIN (TUN_LINK_DELTA f).
Definition MAX_RW_SIZE_TUN (f : frame) : Z := PAYLOAD_SIZE f.
Definition MAX_RW_SIZE_LINK (f : frame) : Z := int_add (EXPANDED_SIZE f) (extra_link f).

Definition FRAME_HEADROOM_BASE (f : frame) : Z :=
  int_add (int_add (TUN_LINK_DELTA f) (extra_buffer f)) (extra_link f).

(** [frame_headroom]: the two lines of the C body, one per [let]. *)
Definition frame_headroom (f : frame) : Z :=
  let offset := FRAME_HEADROOM_BASE f in
  let delta :=
    Z.land (int_sub (Z.shiftl PAYLOAD_ALIGN 24) offset) (PAYLOAD_ALIGN - 1) in
  int_add offset delta.

Definition FRAME_HEADROOM (f : frame) : Z := frame_headroom f.

Definition BUF_SIZE (f : frame) : Z :=
  int_add (TUN_MTU_SIZE f) (int_wrap (FRAME_HEADROOM_BASE f * 2)).

Definition frame_defined (f : frame) : bool := 0 <? link_mtu f.

(** Flags of [frame_set_mtu_dynamic]. *)
Definition SET_MTU_TUN : Z := Z.shiftl 1 0.
Definition SET_MTU_UPPER_BOUND : Z := Z.shiftl 1 1.

Definition flag_set (flags bit : Z) : bool := negb (Z.land flags bit =? 0).

Definition set_link_mtu_dynamic (f : frame) (v : Z) : frame :=
  mk_frame (link_mtu f) (mss_fix f) v (extra_frame f) (extra_buffer f)
           (extra_tun f) (extra_link f).

(** Modelled from the spec: the body of [frame_set_mtu_dynamic] lives in
    [mtu.c], which is not among the sources; [mtu.h] only has its prototype
    and the two flags.  Section 4.1 of the specification: the call sets
    [link_mtu_dynamic]; with [SET_MTU_UPPER_BOUND] the new value is
    [min(current, mtu)]; with [SET_MTU_TUN] the argument is a tunnel-side
    size and is first translated to the link side through
    [extra_frame]/[extra_tun], that is through [TUN_LINK_DELTA]. *)
Definition frame_set_mtu_dynamic (f : frame) (mtu : Z) (flags : Z) : frame :=
  let mtu' :=
    if flag_set flags SET_MTU_TUN then int_add mtu (TUN_LINK_DELTA f) else mtu in
  if flag_set flags SET_MTU_UPPER_BOUND
  then set_link_mtu_dynamic f (Z.min (link_mtu_dynamic f) mtu')
  else set_link_mtu_dynamic f mtu'.

(** The mathematical headroom base: the sum of the four overheads that
    [FRAME_HEADROOM_BASE] adds up. *)
Definition headroom_base (f : frame) : Z :=
  extra_frame f + extra_tun f + extra_buffer f + extra_link f.

(** [z] rounded up to the next multiple of [PAYLOAD_ALIGN], written as the
    addition of [(-z) mod PAYLOAD_ALIGN]. *)
Definition round_up_align (z : Z) : Z := z + (- z) mod PAYLOAD_ALIGN.

(** The frames of the specification's invariant: every [extra_*] field is
    non-negative. *)
Definition frame_valid (f : frame) : Prop :=
  0 <= extra_frame f /\ 0 <= extra_buffer f /\ 0 <= extra_tun f /\ 0 <= extra_link f.

End Mtu.

Import Mtu.

(** ** Control flow shared by the models: a call returns or dies *)

Module Ctl.

(** A call either returns a value or fails a fatal assertion, which ends the
    process. *)
Inductive outcome (A : Type) : Type :=
| Returned (a : A)
| Fatal.

Arguments Returned {A} a.
Arguments Fatal {A}.

Definition bind {A B : Type} (m : outcome A) (k : A -> outcome B) : outcome B :=
  match m with
  | Returned a => k a
  | Fatal => Fatal
  end.

(** Modelled from the spec: the [ASSERT] macro is defined in [error.h],
    which is not among the sources.  Section 7 of the specification: a failed
    assertion is fatal, the program aborts. *)
Definition ASSERT {A : Type} (cond : bool) (k : outcome A) : outcome A :=
  if cond then k else Fatal.

End Ctl.

Import Ctl.

(** ** Packet opcodes and verdicts ([ssl_pkt.h]) *)

Module SslPkt.

Definition P_KEY_ID_MASK : Z := 0x07.
Definition P_OPCODE_SHIFT : Z := 3.

Definition P_CONTROL_HARD_RESET_CLIENT_V1 : Z := 1.
Definition P_CONTROL_HARD_RESET_SERVER_V1 : Z := 2.
Definition P_CONTROL_SOFT_RESET_V1 : Z := 3.
Definition P_CONTROL_V1 : Z := 4.
Definition P_ACK_V1 : Z := 5.
Definition P_DATA_V1 : Z := 6.
Definition P_DATA_V2 : Z := 9.
Definition P_CONTROL_HARD_RESET_CLIENT_V2 : Z := 7.
Definition P_CONTROL_HARD_RESET_SERVER_V2 : Z := 8.
Definition P_CONTROL_HARD_RESET_CLIENT_V3 : Z := 10.

Definition P_FIRST_OPCODE : Z := 3.
Definition P_LAST_OPCODE : Z := 10.

(** [enum first_packet_verdict]. *)
Inductive first_packet_verdict : Type :=
| VERDICT_VALID_RESET
| VERDICT_VALID_CONTROL_V1
| VERDICT_INVALID.

(** [packet_opcode_name]: the [switch], one test per [case] in the order of
    the source, the last branch being [default]. *)
Definition packet_opcode_name (op : Z) : string :=
  if op =? P_CONTROL_HARD_RESET_CLIENT_V1 then "P_CONTROL_HARD_RESET_CLIENT_V1"
  else if op =? P_CONTROL_HARD_RESET_SERVER_V1 then "P_CONTROL_HARD_RESET_SERVER_V1"
  else if op =? P_CONTROL_HARD_RESET_CLIENT_V2 then "P_CONTROL_HARD_RESET_CLIENT_V2"
  else if op =? P_CONTROL_HARD_RESET_SERVER_V2 then "P_CONTROL_HARD_RESET_SERVER_V2"
  else if op =? P_CONTROL_HARD_RESET_CLIENT_V3 then "P_CONTROL_HARD_RESET_CLIENT_V3"
  else if op =? P_CONTROL_SOFT_RESET_V1 then "P_CONTROL_SOFT_RESET_V1"
  else if op =? P_CONTROL_V1 then "P_CONTROL_V1"
  else if op =? P_ACK_V1 then "P_ACK_V1"
  else if op =? P_DATA_V1 then "P_DATA_V1"
  else if op =? P_DATA_V2 then "P_DATA_V2"
  else "P_???".

(** The legal opcode range [P_FIRST_OPCODE .. P_LAST_OPCODE]. *)
Definition opcode_legal (op : Z) : bool :=
  (P_FIRST_OPCODE <=? op) && (op <=? P_LAST_OPCODE).

(** Modelled from the spec: the expressions that combine and split the header
    byte are in [ssl_pkt.c] and [ssl.c], which are not among the sources;
    [ssl_pkt.h] has the mask, the shift and the comment "packet opcode (high
    5 bits) and key-id (low 3 bits) are combined in one byte".  Section 6 of
    the specification: bits 7-3 are the opcode, bits 2-0 the key-id. *)
Definition packet_header (opcode key_id : Z) : Z :=
  u8_wrap (Z.lor key_id (Z.shiftl opcode P_OPCODE_SHIFT)).

Definition header_opcode (c : Z) : Z := Z.shiftr c P_OPCODE_SHIFT.

Definition header_key_id (c : Z) : Z := Z.land c P_KEY_ID_MASK.

(** The ten named opcodes, in increasing order. *)
Definition named_opcodes : list Z :=
  [ P_CONTROL_HARD_RESET_CLIENT_V1; P_CONTROL_HARD_RESET_SERVER_V1;
    P_CONTROL_SOFT_RESET_V1; P_CONTROL_V1; P_ACK_V1; P_DATA_V1;
    P_CONTROL_HARD_RESET_CLIENT_V2; P_CONTROL_HARD_RESET_SERVER_V2;
    P_DATA_V2; P_CONTROL_HARD_RESET_CLIENT_V3 ].

End SslPkt.

Import SslPkt.

(** ** The DCO interface when [ENABLE_DCO] is not defined ([dco.h]) *)

Module Dco.

Definition DCO_IROUTE_METRIC : Z := 100.
Definition DCO_DEFAULT_METRIC : Z := 200.

(** What a stub hands back to its caller. *)
Inductive retval : Type :=
| RVoid
| RBool (b : bool)
| RInt (i : Z)
| RStr (s : string).

Section Stubs.

(** Everything a DCO operation could read or write: the contexts behind its
    pointer arguments, the tun device, the kernel state. *)
Variable world : Type.

(** A stub runs in a world and returns a value and the world it leaves, or
    dies on an assertion. *)
Definition call : Type := world -> outcome (retval * world).

Definition ret (r : retval) : call := fun w => Returned (r, w).

Definition dco_available (msglevel : Z) : call :=
  ret (RBool false).

Definition dco_check_option_conflict (msglevel : Z) : call :=
  ret (RBool false).

Definition ovpn_dco_init (mode : Z) : call :=
  ret (RBool true).

Definition open_tun_dco (dev : string) : call :=
  ret (RInt 0).

Definition close_tun_dco : call :=
  ret RVoid.

Definition dco_do_read : call :=
  fun w => ASSERT false (ret (RInt 0) w).

Definition dco_do_write (peer_id : Z) (buf : list Z) : call :=
  fun w => ASSERT false (ret (RInt 0) w).

Definition dco_event_set : call :=
  ret RVoid.

Definition init_key_dco_bi (key_direction : Z) (ciphername : string)
    (server : bool) : call :=
  ret (RInt 0).

Definition dco_update_keys : call :=
  fun w => ASSERT false (ret RVoid w).

Definition dco_p2p_add_new_peer : call :=
  ret (RBool true).

Definition dco_set_peer (peerid : Z) (keepalive_interval keepalive_timeout mss : Z)
    : call :=
  ret (RInt 0).

Definition dco_remove_peer : call :=
  ret RVoid.

Definition dco_multi_add_new_peer : call :=
  ret (RBool true).

Definition dco_install_iroute : call :=
  ret RVoid.

Definition dco_delete_iroutes : call :=
  ret RVoid.

Definition dco_get_supported_ciphers : call :=
  ret (RStr "").

(** The seventeen operations of the interface with their scalar arguments. *)
Inductive dco_op : Type :=
| Op_dco_available (msglevel : Z)
| Op_dco_check_option_conflict (msglevel : Z)
| Op_ovpn_dco_init (mode : Z)
| Op_open_tun_dco (dev : string)
| Op_close_tun_dco
| Op_dco_do_read
| Op_dco_do_write (peer_id : Z) (buf : list Z)
| Op_dco_event_set
| Op_init_key_dco_bi (key_direction : Z) (ciphername : string) (server : bool)
| Op_dco_update_keys
| Op_dco_p2p_add_new_peer
| Op_dco_set_peer (peerid : Z) (keepalive_interval keepalive_timeout mss : Z)
| Op_dco_remove_peer
| Op_dco_multi_add_new_peer
| Op_dco_install_iroute
| Op_dco_delete_iroutes
| Op_dco_get_supported_ciphers.

Definition run (op : dco_op) : call :=
  match op with
  | Op_dco_available l => dco_available l
  | Op_dco_check_option_conflict l => dco_check_option_conflict l
  | Op_ovpn_dco_init m => ovpn_dco_init m
  | Op_open_tun_dco d => open_tun_dco d
  | Op_close_tun_dco => close_tun_dco
  | Op_dco_do_read => dco_do_read
  | Op_dco_do_write p b => dco_do_write p b
  | Op_dco_event_set => dco_event_set
  | Op_init_key_dco_bi d c s => init_key_dco_bi d c s
  | Op_dco_update_keys => dco_update_keys
  | Op_dco_p2p_add_new_peer => dco_p2p_add_new_peer
  | Op_dco_set_peer p i t m => dco_set_peer p i t m
  | Op_dco_remove_peer => dco_remove_peer
  | Op_dco_multi_add_new_peer => dco_multi_add_new_peer
  | Op_dco_install_iroute => dco_install_iroute
  | Op_dco_delete_iroutes => dco_delete_iroutes
  | Op_dco_get_supported_ciphers => dco_get_supported_ciphers
  end.

(** The stubs whose body is [ASSERT(false)]. *)
Definition asserts_false (op : dco_op) : bool :=
  match op with
  | Op_dco_do_read | Op_dco_do_write _ _ | Op_dco_update_keys => true
  | _ => false
  end.

(** The fixed value each of the other stubs returns. *)
Definition stub_value (op : dco_op) : retval :=
  match op with
  | Op_dco_available _ | Op_dco_check_option_conflict _ => RBool false
  | Op_ovpn_dco_init _ | Op_dco_p2p_add_new_peer
  | Op_dco_multi_add_new_peer => RBool true
  | Op_open_tun_dco _ | Op_init_key_dco_bi _ _ _ | Op_dco_set_peer _ _ _ _
  | Op_dco_do_read | Op_dco_do_write _ _ => RInt 0
  | Op_dco_get_supported_ciphers => RStr ""
  | _ => RVoid
  end.

(** A call is a no-op, or a mere report such as "unavailable", when it
    returns to its caller and leaves the world as it found it. *)
Definition noop_or_report (op : dco_op) (w : world) : Prop :=
  exists r, run op w = Returned (r, w).

End Stubs.

End Dco.

(** ** The authentication record codec and the pre-session classifier

    [ssl_pkt.h] declares [write_control_auth], [read_control_auth] and
    [tls_pre_decrypt_lite]; their bodies are in [ssl_pkt.c], and the types
    they work on ([struct buffer], [struct tls_wrap_ctx], [struct
    session_id], the replay window, the crypto back end) are in headers that
    are not among the sources.  This module follows sections 3, 4.2 and 6 of
    the specification. *)

Module Codec.

(** Modelled from the spec: the crypto provider of section 6 ("HMAC-compute,
    HMAC-verify, AEAD/CBC encrypt, AEAD/CBC decrypt, each parameterized by
    [...] key material"), an external collaborator absent from the sources.
    [encrypt] and [decrypt] take the key, the associated data and the text;
    the ciphertext includes the authentication tag, and [decrypt] answers
    [None] when the tag does not verify. *)
Record crypto_provider : Type := mk_crypto_provider
  { key : Type;
    hmac_size : nat;
    hmac : key -> list Z -> list Z;
    encrypt : key -> list Z -> list Z -> list Z;
    decrypt : key -> list Z -> list Z -> option (list Z) }.

(** What the codec relies on: a digest has the size the provider announces,
    and decryption undoes encryption under the same key and associated
    data. *)
Record crypto_laws (P : crypto_provider) : Prop := mk_crypto_laws
  { hmac_length : forall k m, length (hmac P k m) = hmac_size P;
    decrypt_encrypt : forall k ad m, decrypt P k ad (encrypt P k ad m) = Some m }.

(** Modelled from the spec: sizes that the specification names and does not
    fix: the size of a session id ("fixed-size random identifier"), the
    "minimum header size" and the "maximum legal packet size (derived from
    Frame Geometry)" of step 1 of the classifier. *)
Record wire_params : Type := mk_wire_params
  { SID_SIZE : nat;
    min_header_size : nat;
    max_packet_size : frame -> Z }.

(** Modelled from the spec: [struct buffer] ([buffer.h], absent): the bytes
    of the packet and the room left in front of them for prepending. *)
Record buffer : Type := mk_buffer
  { buf_headroom : nat;
    buf_data : list Z }.

Definition BLEN (b : buffer) : nat := length (buf_data b).

(** Prepending needs headroom; the callers assert its success. *)
Definition buf_write_prepend (b : buffer) (x : list Z) : option buffer :=
  if (length x <=? buf_headroom b)%nat
  then Some (mk_buffer (buf_headroom b - length x) (x ++ buf_data b))
  else None.

(** Taking [n] bytes off the front of the data, or nothing if fewer are
    there. *)
Definition buf_read (n : nat) (d : list Z) : option (list Z * list Z) :=
  if (n <=? length d)%nat then Some (firstn n d, skipn n d) else None.

Fixpoint bytes_eqb (a b : list Z) : bool :=
  match a, b with
  | [], [] => true
  | x :: a', y :: b' => (x =? y) && bytes_eqb a' b'
  | _, _ => false
  end.

(** A 32-bit value in network byte order. *)
Definition put_u32 (z : Z) : list Z :=
  [ Z.land (Z.shiftr z 24) 255; Z.land (Z.shiftr z 16) 255;
    Z.land (Z.shiftr z 8) 255; Z.land z 255 ].

Definition get_u32 (b : list Z) : Z :=
  match b with
  | [b0; b1; b2; b3] =>
      Z.lor (Z.shiftl b0 24) (Z.lor (Z.shiftl b1 16) (Z.lor (Z.shiftl b2 8) b3))
  | _ => 0
  end.

Definition u32_wrap (z : Z) : Z := Z.land z (Z.ones 32).

(** Modelled from the spec: the replay window (the packet-id module is
    absent from the sources).  Section 4.2: "a fixed-size bitmask/sequence
    structure tracking recently seen packet ids [...]; accepts packet ids
    within a bounded backward window of the highest seen id (marking the bit)
    or any higher id (sliding the window forward), rejects duplicates and ids
    older than the window".  Bit [i] of [rw_seen] stands for the id
    [rw_highest - i]. *)
Record replay_window : Type := mk_replay_window
  { rw_size : Z;
    rw_highest : Z;
    rw_seen : Z }.

Definition replay_init (size : Z) : replay_window := mk_replay_window size 0 0.

Definition replay_check (w : replay_window) (id : Z) : option replay_window :=
  if rw_highest w <? id then
    Some (mk_replay_window (rw_size w) id
            (Z.land (Z.lor (Z.shiftl (rw_seen w) (id - rw_highest w)) 1)
                    (Z.ones (rw_size w))))
  else
    let back := rw_highest w - id in
    if rw_size w <=? back then None
    else if Z.testbit (rw_seen w) back then None
    else Some (mk_replay_window (rw_size w) (rw_highest w)
                 (Z.lor (rw_seen w) (Z.shiftl 1 back))).

(** The three wrap modes of section 4.2: plain, authenticate,
    encrypt-and-authenticate. *)
Inductive tls_wrap_mode : Type :=
| WRAP_PLAIN
| WRAP_AUTHENTICATE
| WRAP_ENCRYPT_AUTHENTICATE.

Section WithProvider.

Variable P : crypto_provider.
Variable W : wire_params.

(** Modelled from the spec: [struct tls_wrap_ctx] ([ssl_common.h], absent):
    the wrap mode, the key used on records we write ("the session's local
    [...] key"), the key used on records we read ("the peer [...] key"), the
    id of the next record we write and the replay window of the records we
    read. *)
Record tls_wrap_ctx : Type := mk_tls_wrap_ctx
  { wrap_mode : tls_wrap_mode;
    key_local : key P;
    key_peer : key P;
    send_packet_id : Z;
    recv_window : replay_window }.

Definition set_recv_window (c : tls_wrap_ctx) (w : replay_window) : tls_wrap_ctx :=
  mk_tls_wrap_ctx (wrap_mode c) (key_local c) (key_peer c) (send_packet_id c) w.

Definition next_packet_id (c : tls_wrap_ctx) : tls_wrap_ctx :=
  mk_tls_wrap_ctx (wrap_mode c) (key_local c) (key_peer c)
                  (u32_wrap (send_packet_id c + 1)) (recv_window c).

(** Modelled from the spec: the parts of [struct tls_session] and [struct
    key_state] ([ssl_common.h], absent) that [write_control_auth] uses: our
    session id and wrap context; the key-id, the packet ids received and not
    yet acknowledged, and the session id of the peer once it is known. *)
Record tls_session : Type := mk_tls_session
  { session_id : list Z;
    tls_wrap : tls_wrap_ctx }.

Record key_state : Type := mk_key_state
  { key_id : Z;
    rec_ack : list Z;
    session_id_remote : option (list Z) }.

(** Modelled from the spec: the acknowledgement block of section 6,
    "[ack-count(1)][ack-count x packet-id(4)][remote-session-id?]", written
    "only if [prepend_ack] is set and at least one ack is pending", with
    "up to [max_ack_count] acknowledged packet ids". *)
Definition acks_to_send (ks : key_state) (max_ack : Z) : list Z :=
  firstn (Z.to_nat max_ack) (rec_ack ks).

Definition ack_block (ks : key_state) (max_ack : Z) (prepend_ack : bool) : list Z :=
  match rec_ack ks with
  | [] => []
  | _ :: _ =>
      if prepend_ack then
        let acks := acks_to_send ks max_ack in
        [u8_wrap (Z.of_nat (length acks))] ++ flat_map put_u32 acks
        ++ match session_id_remote ks with Some sid => sid | None => [] end
      else []
  end.

Definition acks_written (ks : key_state) (max_ack : Z) (prepend_ack : bool)
    : key_state :=
  match rec_ack ks with
  | [] => ks
  | _ :: _ =>
      if prepend_ack
      then mk_key_state (key_id ks) (skipn (Z.to_nat max_ack) (rec_ack ks))
                        (session_id_remote ks)
      else ks
  end.

(** The bytes in front of the wrapped text, by wrap mode (section 6):
    - plain: [header-byte][session-id];
    - authenticate: [header-byte][session-id][packet-id(4)][timestamp(4)][HMAC];
    - encrypt-and-authenticate:
      [header-byte][session-id][packet-id(4)][timestamp(4)]. *)
Definition wrap_overhead (mode : tls_wrap_mode) : nat :=
  match mode with
  | WRAP_PLAIN => 1 + SID_SIZE W
  | WRAP_AUTHENTICATE => 1 + SID_SIZE W + 4 + 4 + hmac_size P
  | WRAP_ENCRYPT_AUTHENTICATE => 1 + SID_SIZE W + 4 + 4
  end.

(** Modelled from the spec: [write_control_auth] ([ssl_pkt.c], absent).
    Section 4.2: the session id and the optional acknowledgement block go in
    front of [buf], "then applies the configured wrap mode"; "opcode and
    key-id are packed into the leading header byte"; insufficient headroom
    is a fatal assertion.  The order of the fields on the wire is that of
    section 6.  [now] is the clock value that becomes the timestamp.  The
    call returns the record, the session with its packet id advanced, and the
    key state without the acknowledgements just sent. *)
Definition write_control_auth (session : tls_session) (ks : key_state)
    (buf : buffer) (opcode : Z) (max_ack : Z) (prepend_ack : bool) (now : Z)
    : outcome (buffer * tls_session * key_state) :=
  let header := packet_header opcode (key_id ks) in
  let ctx := tls_wrap session in
  let ks' := acks_written ks max_ack prepend_ack in
  match buf_write_prepend buf (ack_block ks max_ack prepend_ack) with
  | None => Fatal
  | Some inner =>
      match wrap_mode ctx with
      | WRAP_PLAIN =>
          match buf_write_prepend inner ([header] ++ session_id session) with
          | None => Fatal
          | Some out => Returned (out, session, ks')
          end
      | WRAP_AUTHENTICATE =>
          let pid := put_u32 (send_packet_id ctx) in
          let ts := put_u32 now in
          let mac := hmac P (key_local ctx) (pid ++ ts ++ buf_data inner) in
          match buf_write_prepend inner
                  ([header] ++ session_id session ++ pid ++ ts ++ mac) with
          | None => Fatal
          | Some out =>
              Returned (out, mk_tls_session (session_id session) (next_packet_id ctx), ks')
          end
      | WRAP_ENCRYPT_AUTHENTICATE =>
          let pid := put_u32 (send_packet_id ctx) in
          let ts := put_u32 now in
          let text := encrypt P (key_local ctx) (pid ++ ts) (buf_data inner) in
          match buf_write_prepend (mk_buffer (buf_headroom inner) text)
                  ([header] ++ session_id session ++ pid ++ ts) with
          | None => Fatal
          | Some out =>
              Returned (out, mk_tls_session (session_id session) (next_packet_id ctx), ks')
          end
      end
  end.

(** The fields of a record as they are cut out of the received bytes. *)
Record wire_record : Type := mk_wire_record
  { r_header : Z;
    r_sid : list Z;
    r_pid : list Z;
    r_ts : list Z;
    r_mac : list Z;
    r_text : list Z }.

Notation "' p <- e ;; k" :=
  (match e with Some p => k | None => None end)
  (at level 60, p pattern, e at next level, right associativity).

Definition parse_record (mode : tls_wrap_mode) (d : list Z) : option wire_record :=
  match d with
  | [] => None
  | header :: d0 =>
      ' (sid, d1) <- buf_read (SID_SIZE W) d0 ;;
      match mode with
      | WRAP_PLAIN => Some (mk_wire_record header sid [] [] [] d1)
      | WRAP_AUTHENTICATE =>
          ' (pid, d2) <- buf_read 4 d1 ;;
          ' (ts, d3) <- buf_read 4 d2 ;;
          ' (mac, text) <- buf_read (hmac_size P) d3 ;;
          Some (mk_wire_record header sid pid ts mac text)
      | WRAP_ENCRYPT_AUTHENTICATE =>
          ' (pid, d2) <- buf_read 4 d1 ;;
          ' (ts, text) <- buf_read 4 d2 ;;
          Some (mk_wire_record header sid pid ts [] text)
      end
  end.

(** The verification of a record under key [k]: nothing in plain mode; the
    HMAC recomputed over packet id, timestamp and text and compared with the
    one received in authenticate mode; decryption with verification of the
    tag in encrypt-and-authenticate mode.  The result is the clear text. *)
Definition verify_record (k : key P) (mode : tls_wrap_mode) (r : wire_record)
    : option (list Z) :=
  match mode with
  | WRAP_PLAIN => Some (r_text r)
  | WRAP_AUTHENTICATE =>
      if bytes_eqb (r_mac r) (hmac P k (r_pid r ++ r_ts r ++ r_text r))
      then Some (r_text r) else None
  | WRAP_ENCRYPT_AUTHENTICATE => decrypt P k (r_pid r ++ r_ts r) (r_text r)
  end.

(** The replay check of the two authenticated modes: the packet id of the
    record is offered to the window of the context.  The timestamp is
    covered by the HMAC or the tag; the window of section 4.2 decides on
    packet ids alone. *)
Definition replay_record (ctx : tls_wrap_ctx) (r : wire_record)
    : option tls_wrap_ctx :=
  match wrap_mode ctx with
  | WRAP_PLAIN => Some ctx
  | _ =>
      ' w <- replay_check (recv_window ctx) (get_u32 (r_pid r)) ;;
      Some (set_recv_window ctx w)
  end.

(** Parsing, verification under [k], replay check, in this order; the
    context changes only after all three have passed. *)
Definition unwrap_control (k : key P) (ctx : tls_wrap_ctx) (d : list Z)
    : option (list Z * tls_wrap_ctx * wire_record) :=
  ' r <- parse_record (wrap_mode ctx) d ;;
  ' text <- verify_record k (wrap_mode ctx) r ;;
  ' ctx' <- replay_record ctx r ;;
  Some (text, ctx', r).

(** Modelled from the spec: [read_control_auth] ([ssl_pkt.c], absent).
    Section 4.2: the "inverse transform" of the wrap mode, checked with the
    peer key, then the replay window; "returns false [...] on any
    verification, decryption, or replay failure - never partially applies
    side effects on failure".  On success the buffer holds the clear text
    that followed the wrap header, and the bytes consumed count as
    headroom. *)
Definition read_control_auth (buf : buffer) (ctx : tls_wrap_ctx)
    : bool * buffer * tls_wrap_ctx :=
  match unwrap_control (key_peer ctx) ctx (buf_data buf) with
  | Some (text, ctx', _) =>
      (true,
       mk_buffer (buf_headroom buf + (BLEN buf - length text)) text,
       ctx')
  | None => (false, buf, ctx)
  end.

(** [struct tls_auth_standalone] ([ssl_pkt.h]). *)
Record tls_auth_standalone : Type := mk_tls_auth_standalone
  { tas_tls_wrap : tls_wrap_ctx;
    tas_frame : frame }.

(** [struct tls_pre_decrypt_state] ([ssl_pkt.h]). *)
Record tls_pre_decrypt_state : Type := mk_tls_pre_decrypt_state
  { tls_wrap_tmp : tls_wrap_ctx;
    newbuf : buffer;
    peer_session_id : list Z }.

(** The objects behind the three pointers of a call of
    [tls_pre_decrypt_lite]. *)
Record lite_store : Type := mk_lite_store
  { st_tas : tls_auth_standalone;
    st_state : tls_pre_decrypt_state;
    st_buf : buffer }.

Definition store_state (m : lite_store) (s : tls_pre_decrypt_state) : lite_store :=
  mk_lite_store (st_tas m) s (st_buf m).

(** The opcode classes of steps 3 and 4 of the classifier. *)
Definition is_hard_reset (op : Z) : bool :=
  (op =? P_CONTROL_HARD_RESET_CLIENT_V2)
  || (op =? P_CONTROL_HARD_RESET_SERVER_V2)
  || (op =? P_CONTROL_HARD_RESET_CLIENT_V3).

Definition is_control_class (op : Z) : bool :=
  (op =? P_CONTROL_V1) || (op =? P_ACK_V1) || (op =? P_CONTROL_SOFT_RESET_V1).

(** Step 2 of the classifier: the opcode lies in the legal range and a
    reset-class opcode comes with key-id 0. *)
Definition opcode_check (c : Z) : bool :=
  let op := header_opcode c in
  let kid := header_key_id c in
  opcode_legal op && (negb (is_hard_reset op) || (kid =? 0)).

(** Step 1 of the classifier. *)
Definition size_check (tas : tls_auth_standalone) (buf : buffer) : bool :=
  (min_header_size W <=? BLEN buf)%nat
  && (Z.of_nat (BLEN buf) <=? max_packet_size W (tas_frame tas)).

(** Modelled from the spec: [tls_pre_decrypt_lite] ([ssl_pkt.c], absent),
    steps 1 to 5 of section 4.2.  The source address takes no part in these
    steps and is left out.  The verification of steps 3 and 4 runs on
    [tls_wrap_tmp], a copy of the standalone wrap context kept in the
    scratch state, with the local key; on success the scratch state
    receives the de-wrapped text and the session id of the peer. *)
Definition tls_pre_decrypt_lite (m : lite_store)
    : first_packet_verdict * lite_store :=
  let tas := st_tas m in
  let buf := st_buf m in
  if negb (size_check tas buf) then (VERDICT_INVALID, m)
  else
    match buf_data buf with
    | [] => (VERDICT_INVALID, m)
    | c :: _ =>
        if negb (opcode_check c) then (VERDICT_INVALID, m)
        else
          let op := header_opcode c in
          if is_hard_reset op || is_control_class op then
            let tmp := tas_tls_wrap tas in
            let scratch :=
              mk_tls_pre_decrypt_state tmp (newbuf (st_state m))
                                       (peer_session_id (st_state m)) in
            match unwrap_control (key_local tmp) tmp (buf_data buf) with
            | None => (VERDICT_INVALID, store_state m scratch)
            | Some (text, tmp', r) =>
                (if is_hard_reset op
                 then VERDICT_VALID_RESET else VERDICT_VALID_CONTROL_V1,
                 store_state m
                   (mk_tls_pre_decrypt_state tmp'
                      (mk_buffer (buf_headroom buf + (BLEN buf - length text)) text)
                      (r_sid r)))
            end
          else (VERDICT_INVALID, m)
    end.

End WithProvider.

Arguments wrap_mode {P} _.
Arguments key_local {P} _.
Arguments key_peer {P} _.
Arguments send_packet_id {P} _.
Arguments recv_window {P} _.
Arguments session_id {P} _.
Arguments tls_wrap {P} _.
Arguments tas_tls_wrap {P} _.
Arguments tas_frame {P} _.
Arguments tls_wrap_tmp {P} _.
Arguments newbuf {P} _.
Arguments peer_session_id {P} _.
Arguments st_tas {P} _.
Arguments st_state {P} _.
Arguments st_buf {P} _.
Arguments set_recv_window {P} _ _.
Arguments next_packet_id {P} _.
Arguments store_state {P} _ _.

(** *** A small provider on which the definitions can be run

    Keys are bytes; the digest is one byte, the sum of key and message; the
    cipher puts the key byte in front of the text as its tag. *)

Definition toy_hmac (k : Z) (m : list Z) : list Z :=
  [Z.land (fold_left Z.add m k) 255].

Definition toy_encrypt (k : Z) (ad m : list Z) : list Z :=
  toy_hmac k ad ++ m.

Definition toy_decrypt (k : Z) (ad c : list Z) : option (list Z) :=
  match c with
  | [] => None
  | t :: m => if bytes_eqb [t] (toy_hmac k ad) then Some m else None
  end.

Definition toy_provider : crypto_provider :=
  mk_crypto_provider Z 1 toy_hmac toy_encrypt toy_decrypt.

Definition toy_params : wire_params :=
  mk_wire_params 2 3 MAX_RW_SIZE_LINK.

End Codec.

(** ** Frame member adjustment ([mtu.h]) *)

Module MtuAdjust.

(** [x += increment] where [x] is an [int] and [increment] an [unsigned
    int]: [x] is converted to [unsigned int], the sum is taken modulo
    [2^32], and the result is converted back to [int]. *)
Definition int_add_unsigned (x increment : Z) : Z :=
  int_wrap (uint_wrap (uint_wrap x + increment)).

(** [x -= decrement], same conversions. *)
Definition int_sub_unsigned (x decrement : Z) : Z :=
  int_wrap (uint_wrap (uint_wrap x - decrement)).

Definition frame_add_to_link_mtu (f : frame) (increment : Z) : frame :=
  mk_frame (int_add (link_mtu f) increment) (mss_fix f) (link_mtu_dynamic f)
           (extra_frame f) (extra_buffer f) (extra_tun f) (extra_link f).

Definition frame_add_to_extra_frame (f : frame) (increment : Z) : frame :=
  mk_frame (link_mtu f) (mss_fix f) (link_mtu_dynamic f)
           (int_add_unsigned (extra_frame f) increment)
           (extra_buffer f) (extra_tun f) (extra_link f).

Definition frame_remove_from_extra_frame (f : frame) (decrement : Z) : frame :=
  mk_frame (link_mtu f) (mss_fix f) (link_mtu_dynamic f)
           (int_sub_unsigned (extra_frame f) decrement)
           (extra_buffer f) (extra_tun f) (extra_link f).

Definition frame_add_to_extra_tun (f : frame) (increment : Z) : frame :=
  mk_frame (link_mtu f) (mss_fix f) (link_mtu_dynamic f) (extra_frame f)
           (extra_buffer f) (int_add (extra_tun f) increment) (extra_link f).

Definition frame_add_to_extra_link (f : frame) (increment : Z) : frame :=
  mk_frame (link_mtu f) (mss_fix f) (link_mtu_dynamic f) (extra_frame f)
           (extra_buffer f) (extra_tun f) (int_add (extra_link f) increment).

Definition frame_add_to_extra_buffer (f : frame) (increment : Z) : frame :=
  mk_frame (link_mtu f) (mss_fix f) (link_mtu_dynamic f) (extra_frame f)
           (int_add (extra_buffer f) increment) (extra_tun f) (extra_link f).

(** A frame all of whose [int] fields are values of type [int]. *)
Definition frame_in_int (f : frame) : Prop :=
  in_int (link_mtu f) /\ in_int (link_mtu_dynamic f) /\ in_int (extra_frame f)
  /\ in_int (extra_buffer f) /\ in_int (extra_tun f) /\ in_int (extra_link f).

(** A size below which no macro of [mtu.h] can overflow: with the link MTU
    and the four overheads between 0 and [2^27], every sum and difference
    the macros form stays within [int]. *)
Definition FRAME_FIELD_MAX : Z := 134217728.

Definition frame_bounded (f : frame) : Prop :=
  0 <= link_mtu f <= FRAME_FIELD_MAX
  /\ 0 <= extra_frame f <= FRAME_FIELD_MAX
  /\ 0 <= extra_buffer f <= FRAME_FIELD_MAX
  /\ 0 <= extra_tun f <= FRAME_FIELD_MAX
  /\ 0 <= extra_link f <= FRAME_FIELD_MAX.

(** The bytes that a list of processing steps registers in all. *)
Definition overhead_total (l : list Z) : Z := fold_right Z.add 0 l.

End MtuAdjust.

Import MtuAdjust.

(** ** Sequences of DCO calls *)

Module DcoSeq.

Section Seq.

Variable world : Type.

(** The calls of [ops] one after the other, each in the world the one
    before left; the values they return, in order. *)
Fixpoint run_all (ops : list Dco.dco_op) (w : world)
    : outcome (list Dco.retval * world) :=
  match ops with
  | [] => Returned ([], w)
  | op :: rest =>
      bind (Dco.run world op w) (fun rw =>
      bind (run_all rest (snd rw)) (fun rsw =>
      Returned (fst rw :: fst rsw, snd rsw)))
  end.

End Seq.

End DcoSeq.

(** ** Sample inputs

    The frames and the small session on which the theorems below are run. *)

(** A tap frame: 41 bytes of encapsulation, 8 of work buffer, the default
    32 of [--tun-mtu-extra], 3 of peer-id. *)
Definition frame_c5 : frame := mk_frame 1500 1450 1500 41 8 32 3.

(** A frame at the upper end of [int]. *)
Definition frame_c6 : frame := mk_frame 1500 1450 1500 2147483645 0 0 0.

Import Codec.

Definition toy_ctx (mode : tls_wrap_mode) : tls_wrap_ctx toy_provider :=
  mk_tls_wrap_ctx toy_provider mode 7 7 1 (replay_init 64).

Definition toy_session (mode : tls_wrap_mode) : tls_session toy_provider :=
  mk_tls_session toy_provider [170; 187] (toy_ctx mode).

Definition toy_key_state : key_state := mk_key_state 0 [3; 4] (Some [1; 2]).

Definition toy_payload : buffer := mk_buffer 40 [10; 20; 30].

(** The record that [toy_session WRAP_AUTHENTICATE] writes for
    [toy_payload] at time 1000, with its HMAC byte changed from 59 to 60. *)
Definition toy_tampered : buffer :=
  mk_buffer 17
    [56; 170; 187; 0; 0; 0; 1; 0; 0; 3; 232; 60;
     2; 0; 0; 0; 3; 0; 0; 0; 4; 1; 2; 10; 20; 30].

(** A datagram whose first byte carries opcode 1 and key-id 0. *)
Definition toy_store_v1 : lite_store toy_provider :=
  mk_lite_store toy_provider
    (mk_tls_auth_standalone toy_provider (toy_ctx WRAP_AUTHENTICATE) frame_c5)
    (mk_tls_pre_decrypt_state toy_provider (toy_ctx WRAP_PLAIN) (mk_buffer 0 []) [])
    (mk_buffer 0 [8; 170; 187; 0; 0; 0; 1; 0; 0; 3; 232; 59; 10; 20; 30]).

(** Writing [toy_payload] in a given mode and reading the record back. *)
Definition toy_roundtrip (mode : tls_wrap_mode) : Prop :=
  exists record session' ks' out reader',
    write_control_auth toy_provider (toy_session mode) toy_key_state
      toy_payload 7 4 true 1000 = Returned (record, session', ks')
    /\ read_control_auth toy_provider toy_params record (toy_ctx mode)
       = (true, out, reader')
    /\ buf_data out = [2; 0; 0; 0; 3; 0; 0; 0; 4; 1; 2] ++ [10; 20; 30].

(** The round trip read literally: the bytes of [toy_payload] and nothing
    else come back. *)
Definition toy_roundtrip_exact (mode : tls_wrap_mode) : Prop :=
  exists record session' ks' out reader',
    write_control_auth toy_provider (toy_session mode) toy_key_state
      toy_payload 7 4 true 1000 = Returned (record, session', ks')
    /\ read_control_auth toy_provider toy_params record (toy_ctx mode)
       = (true, out, reader')
    /\ buf_data out = buf_data toy_payload.

(** The bytes that the reader of [toy_ctx mode] finds in its buffer after
    reading the record written for [toy_payload]. *)
Definition toy_read_back (mode : tls_wrap_mode) : option (list Z) :=
  match write_control_auth toy_provider (toy_session mode) toy_key_state
          toy_payload 7 4 true 1000 with
  | Returned (record, _, _) =>
      match read_control_auth toy_provider toy_params record (toy_ctx mode) with
      | (true, out, _) => Some (buf_data out)
      | _ => None
      end
  | Fatal => None
  end.

(** The authenticated record that [toy_session] writes for [toy_payload]
    under a given opcode. *)
Definition toy_record (opcode : Z) : buffer :=
  match write_control_auth toy_provider (toy_session WRAP_AUTHENTICATE)
          toy_key_state toy_payload opcode 4 true 1000 with
  | Returned (record, _, _) => record
  | Fatal => mk_buffer 0 []
  end.

(** A server whose standalone key is [k] receiving [toy_record opcode]. *)
Definition toy_store (k : Z) (opcode : Z) : lite_store toy_provider :=
  mk_lite_store toy_provider
    (mk_tls_auth_standalone toy_provider
       (mk_tls_wrap_ctx toy_provider WRAP_AUTHENTICATE k k 1 (replay_init 64))
       frame_c5)
    (mk_tls_pre_decrypt_state toy_provider (toy_ctx WRAP_PLAIN) (mk_buffer 0 []) [])
    (toy_record opcode).

(** ** Facts about machine integers *)

Lemma int_wrap_range (z : Z) : in_int (int_wrap z).
Proof.
  unfold in_int, int_wrap, INT_MIN, INT_MAX, int_modulus.
  pose proof (Z.mod_pos_bound (z - -2147483648) 4294967296 ltac:(lia)).
  lia.
Qed.

Lemma int_wrap_small (z : Z) : in_int z -> int_wrap z = z.
Proof.
  unfold in_int, int_wrap, INT_MIN, INT_MAX, int_modulus. intros H.
  rewrite Z.mod_small by lia. lia.
Qed.

(** Wrapping never changes the residue modulo the 32-bit modulus. *)
Lemma int_wrap_eqm (z : Z) : exists k, int_wrap z = z + k * int_modulus.
Proof.
  unfold int_wrap.
  exists (- ((z - INT_MIN) / int_modulus)).
  pose proof (Z.div_mod (z - INT_MIN) int_modulus ltac:(unfold int_modulus; lia)).
  lia.
Qed.

Lemma int_wrap_mod4 (z : Z) : int_wrap z mod 4 = z mod 4.
Proof.
  destruct (int_wrap_eqm z) as [k ->].
  replace (k * int_modulus) with ((k * 1073741824) * 4)
    by (unfold int_modulus; lia).
  apply Z.mod_add. lia.
Qed.

Lemma int_wrap_idem_add (a b : Z) : int_wrap (int_wrap a + b) = int_wrap (a + b).
Proof.
  destruct (int_wrap_eqm a) as [k ->].
  unfold int_wrap. f_equal.
  replace (a + k * int_modulus + b - INT_MIN) with (a + b - INT_MIN + k * int_modulus) by lia.
  apply Z.mod_add. unfold int_modulus. lia.
Qed.

Lemma int_wrap_idem_add_r (a b : Z) : int_wrap (a + int_wrap b) = int_wrap (a + b).
Proof.
  rewrite (Z.add_comm a (int_wrap b)), int_wrap_idem_add. f_equal. lia.
Qed.

(** *** Facts about rounding *)

Lemma round_up_align_ge (z : Z) : z <= round_up_align z < z + 4.
Proof.
  unfold round_up_align, PAYLOAD_ALIGN.
  pose proof (Z.mod_pos_bound (- z) 4 ltac:(lia)). lia.
Qed.

Lemma round_up_align_mod (z : Z) : round_up_align z mod 4 = 0.
Proof.
  unfold round_up_align, PAYLOAD_ALIGN.
  rewrite Z.add_mod_idemp_r by lia.
  replace (z + - z) with 0 by lia. reflexivity.
Qed.

(** [round_up_align z] is the least multiple of 4 that is at least [z]. *)
Lemma round_up_align_least (z m : Z) :
  z <= m -> m mod 4 = 0 -> round_up_align z <= m.
Proof.
  intros Hle Hm.
  pose proof (round_up_align_ge z) as Hr.
  pose proof (round_up_align_mod z) as Hr0.
  apply Z.mod_divide in Hm; [|lia]. apply Z.mod_divide in Hr0; [|lia].
  destruct Hm as [a Ha]. destruct Hr0 as [b Hb]. lia.
Qed.

Lemma FRAME_HEADROOM_BASE_wrap (f : frame) :
  FRAME_HEADROOM_BASE f = int_wrap (headroom_base f).
Proof.
  unfold FRAME_HEADROOM_BASE, TUN_LINK_DELTA, headroom_base, int_add.
  rewrite int_wrap_idem_add, <- Z.add_assoc, int_wrap_idem_add.
  f_equal. lia.
Qed.

(** The masked difference of the C body is [(-offset) mod 4]. *)
Lemma headroom_delta (offset : Z) :
  Z.land (int_sub (Z.shiftl PAYLOAD_ALIGN 24) offset) (PAYLOAD_ALIGN - 1)
  = (- offset) mod 4.
Proof.
  unfold PAYLOAD_ALIGN, int_sub.
  change (4 - 1) with (Z.ones 2). rewrite Z.land_ones by lia.
  change (2 ^ 2) with 4. rewrite int_wrap_mod4.
  change (Z.shiftl 4 24) with (16777216 * 4).
  replace (16777216 * 4 - offset) with (- offset + 16777216 * 4) by lia.
  apply Z.mod_add. lia.
Qed.

Lemma frame_headroom_wrap (f : frame) :
  frame_headroom f = int_wrap (round_up_align (headroom_base f)).
Proof.
  unfold frame_headroom. rewrite headroom_delta.
  rewrite FRAME_HEADROOM_BASE_wrap. unfold int_add.
  assert (E : (- int_wrap (headroom_base f)) mod 4 = (- headroom_base f) mod 4).
  { destruct (int_wrap_eqm (headroom_base f)) as [k ->].
    replace (- (headroom_base f + k * int_modulus))
      with (- headroom_base f + (- k * 1073741824) * 4)
      by (unfold int_modulus; lia).
    apply Z.mod_add. lia. }
  rewrite E, int_wrap_idem_add. reflexivity.
Qed.

Lemma frame_headroom_mod4 (f : frame) : frame_headroom f mod 4 = 0.
Proof.
  rewrite frame_headroom_wrap, int_wrap_mod4. apply round_up_align_mod.
Qed.

Lemma frame_headroom_exact (f : frame) :
  INT_MIN <= headroom_base f <= INT_MAX - 3 ->
  frame_headroom f = round_up_align (headroom_base f).
Proof.
  intros H. rewrite frame_headroom_wrap. apply int_wrap_small.
  pose proof (round_up_align_ge (headroom_base f)) as Hr.
  pose proof (round_up_align_mod (headroom_base f)) as Hm.
  unfold in_int, INT_MIN, INT_MAX in *.
  apply Z.mod_divide in Hm; [|lia]. destruct Hm as [q Hq]. lia.
Qed.

(** ** Frame geometry: the headroom *)

(** Claim C5 as stated fails: with [extra_buffer = 8] and [extra_link = 3]
    the headroom is 84, whereas [extra_frame + extra_tun = 73] rounded up to
    a multiple of 4 is 76. *)
Lemma frame_headroom_not_tun_link_delta :
  frame_headroom frame_c5
  <> round_up_align (extra_frame frame_c5 + extra_tun frame_c5).
Proof. vm_compute. discriminate. Qed.

(** Claim C5, amended.  For every frame, [frame_headroom] adds
    [(- offset) mod 4] to [offset = FRAME_HEADROOM_BASE(f)], the [int] sum of
    [extra_frame], [extra_tun], [extra_buffer] and [extra_link]; when that
    sum lies between [INT_MIN] and [INT_MAX - 3], the result is the sum
    rounded up to the next multiple of 4: the least multiple of 4 that is
    not below it. *)
Theorem frame_headroom_rounds_base (f : frame) :
  frame_headroom f
  = int_add (FRAME_HEADROOM_BASE f) ((- FRAME_HEADROOM_BASE f) mod 4)
  /\ FRAME_HEADROOM_BASE f = int_wrap (headroom_base f)
  /\ (INT_MIN <= headroom_base f <= INT_MAX - 3 ->
      FRAME_HEADROOM_BASE f = headroom_base f
      /\ frame_headroom f = round_up_align (headroom_base f)
      /\ frame_headroom f mod 4 = 0
      /\ headroom_base f <= frame_headroom f
      /\ (forall m, headroom_base f <= m -> m mod 4 = 0 -> frame_headroom f <= m)).
Proof.
  split; [|split].
  - unfold frame_headroom. now rewrite headroom_delta.
  - apply FRAME_HEADROOM_BASE_wrap.
  - intros Hfit.
    assert (Hb : FRAME_HEADROOM_BASE f = headroom_base f).
    { rewrite FRAME_HEADROOM_BASE_wrap. apply int_wrap_small.
      unfold in_int, INT_MIN, INT_MAX in *. lia. }
    rewrite (frame_headroom_exact f Hfit).
    repeat split.
    + exact Hb.
    + apply round_up_align_mod.
    + apply round_up_align_ge.
    + intros m Hle Hm. now apply round_up_align_least.
Qed.

Lemma frame_headroom_rounds_base_witness :
  frame_headroom frame_c5 = round_up_align (headroom_base frame_c5)
  /\ frame_headroom frame_c5 = 84.
Proof.
  split.
  - apply (frame_headroom_rounds_base frame_c5). vm_compute.
    split; discriminate.
  - reflexivity.
Defined.

(** Claim C6 as stated fails at the upper end of [int]: every [extra_*]
    field of [frame_c6] is non-negative, its base [2147483645] needs 3 more
    bytes to reach a multiple of 4, and [offset + delta] leaves the range of
    [int]. *)
Lemma frame_headroom_overflow :
  frame_valid frame_c6
  /\ ~ (frame_headroom frame_c6 mod 4 = 0
        /\ frame_headroom frame_c6 >= extra_frame frame_c6 + extra_tun frame_c6).
Proof.
  split.
  - unfold frame_valid. cbn. lia.
  - intros [_ H]. vm_compute in H. apply H. reflexivity.
Qed.

(** Claim C6, amended.  For every frame, [frame_headroom] is divisible by 4;
    for every valid frame (all [extra_*] fields non-negative) whose four
    overheads sum to at most [INT_MAX - 3], it is also at least
    [extra_frame + extra_tun]. *)
Theorem frame_headroom_aligned_and_large (f : frame) :
  frame_headroom f mod 4 = 0
  /\ (frame_valid f -> headroom_base f <= INT_MAX - 3 ->
      frame_headroom f >= extra_frame f + extra_tun f).
Proof.
  split.
  - apply frame_headroom_mod4.
  - intros (Hf & Hb & Ht & Hl) Hfit.
    assert (Hr : INT_MIN <= headroom_base f <= INT_MAX - 3).
    { unfold headroom_base, INT_MIN in *. lia. }
    rewrite (frame_headroom_exact f Hr).
    pose proof (round_up_align_ge (headroom_base f)).
    unfold headroom_base in *. lia.
Qed.

Lemma frame_headroom_aligned_and_large_witness :
  frame_headroom frame_c5 >= extra_frame frame_c5 + extra_tun frame_c5.
Proof.
  apply (frame_headroom_aligned_and_large frame_c5).
  - unfold frame_valid. cbn. lia.
  - vm_compute. discriminate.
Defined.

(** ** Frame geometry: the dynamic MTU *)

Lemma set_link_mtu_dynamic_get (f : frame) (v : Z) :
  link_mtu_dynamic (set_link_mtu_dynamic f v) = v.
Proof. reflexivity. Qed.

Lemma frame_set_mtu_dynamic_upper (f : frame) (mtu flags : Z) :
  flag_set flags SET_MTU_UPPER_BOUND = true ->
  flag_set flags SET_MTU_TUN = false ->
  frame_set_mtu_dynamic f mtu flags
  = set_link_mtu_dynamic f (Z.min (link_mtu_dynamic f) mtu).
Proof.
  intros Hu Ht. unfold frame_set_mtu_dynamic. now rewrite Hu, Ht.
Qed.

(** Claim C7.  With [SET_MTU_UPPER_BOUND] set and [SET_MTU_TUN] clear,
    [frame_set_mtu_dynamic] stores [min(link_mtu_dynamic, mtu)] and touches
    no other field; two calls with [v1] then [v2] leave
    [min(link_mtu_dynamic_before, v1, v2)]. *)
Theorem frame_set_mtu_dynamic_upper_bound (f : frame) (v1 v2 flags1 flags2 : Z) :
  flag_set flags1 SET_MTU_UPPER_BOUND = true ->
  flag_set flags1 SET_MTU_TUN = false ->
  flag_set flags2 SET_MTU_UPPER_BOUND = true ->
  flag_set flags2 SET_MTU_TUN = false ->
  let f1 := frame_set_mtu_dynamic f v1 flags1 in
  let f2 := frame_set_mtu_dynamic f1 v2 flags2 in
  link_mtu_dynamic f1 = Z.min (link_mtu_dynamic f) v1
  /\ f1 = set_link_mtu_dynamic f (Z.min (link_mtu_dynamic f) v1)
  /\ link_mtu_dynamic f2 = Z.min (Z.min (link_mtu_dynamic f) v1) v2
  /\ link_mtu_dynamic f2 <= link_mtu_dynamic f1 <= link_mtu_dynamic f.
Proof.
  intros U1 T1 U2 T2 f1 f2. subst f1 f2.
  rewrite !frame_set_mtu_dynamic_upper by assumption.
  rewrite !set_link_mtu_dynamic_get.
  repeat split; lia.
Qed.

Lemma frame_set_mtu_dynamic_upper_bound_witness :
  link_mtu_dynamic
    (frame_set_mtu_dynamic
       (frame_set_mtu_dynamic frame_c5 1400 SET_MTU_UPPER_BOUND)
       1450 SET_MTU_UPPER_BOUND)
  = Z.min (Z.min 1500 1400) 1450.
Proof.
  apply (frame_set_mtu_dynamic_upper_bound frame_c5 1400 1450
           SET_MTU_UPPER_BOUND SET_MTU_UPPER_BOUND); reflexivity.
Defined.

(** ** Opcodes and the header byte *)

Lemma header_opcode_div (c : Z) : header_opcode c = c / 8.
Proof. unfold header_opcode, P_OPCODE_SHIFT. now rewrite Z.shiftr_div_pow2 by lia. Qed.

Lemma header_key_id_mod (c : Z) : header_key_id c = c mod 8.
Proof.
  unfold header_key_id, P_KEY_ID_MASK. change 7 with (Z.ones 3).
  now rewrite Z.land_ones by lia.
Qed.

Lemma packet_header_value (op k : Z) :
  0 <= op < 32 -> 0 <= k < 8 -> packet_header op k = op * 8 + k.
Proof.
  intros Hop Hk. unfold packet_header, u8_wrap, P_OPCODE_SHIFT.
  change 255 with (Z.ones 8). rewrite Z.land_ones by lia.
  rewrite Z.shiftl_mul_pow2 by lia. change (2 ^ 3) with 8. change (2 ^ 8) with 256.
  assert (E : Z.lor k (op * 8) = op * 8 + k).
  { assert (D : Z.land (op * 8) k = 0); [|
      now rewrite Z.lor_comm, <- Z.lxor_lor, <- Z.add_nocarry_lxor by exact D].
    apply Z.bits_inj'. intros n Hn. rewrite Z.land_spec, Z.bits_0.
    destruct (Z.ltb_spec n 3).
    - replace (op * 8) with (op * 2 ^ 3) by lia.
      rewrite Z.mul_pow2_bits_low by lia. reflexivity.
    - rewrite (Z.bits_above_log2 k n); [apply andb_false_r|lia|].
      destruct (Z.eq_dec k 0) as [->|]; [cbn; lia|].
      apply Z.log2_lt_pow2; [lia|].
      apply Z.lt_le_trans with (2 ^ 3); [cbn; lia|].
      apply Z.pow_le_mono_r; lia. }
  rewrite E. apply Z.mod_small. lia.
Qed.

(** Claim C8.  In a header byte [c] the opcode is bits 7-3 and the key-id
    bits 2-0; packing an opcode and a key-id and splitting the byte again
    gives them back; the legal opcodes are exactly 3 to 10, which leaves out
    the obsolete 1 and 2; and the opcode constants have the values of the
    wire format. *)
Theorem header_byte_layout (c op k : Z) :
  0 <= c < 256 -> 0 <= op < 32 -> 0 <= k < 8 ->
  (c = header_opcode c * 8 + header_key_id c
   /\ 0 <= header_opcode c < 32 /\ 0 <= header_key_id c < 8)
  /\ (forall i, 0 <= i < 5 -> Z.testbit (header_opcode c) i = Z.testbit c (i + 3))
  /\ (forall i, 0 <= i < 3 -> Z.testbit (header_key_id c) i = Z.testbit c i)
  /\ (0 <= packet_header op k < 256
      /\ header_opcode (packet_header op k) = op
      /\ header_key_id (packet_header op k) = k)
  /\ (opcode_legal op = true <-> 3 <= op <= 10)
  /\ (P_FIRST_OPCODE = 3 /\ P_LAST_OPCODE = 10
      /\ opcode_legal P_CONTROL_HARD_RESET_CLIENT_V1 = false
      /\ opcode_legal P_CONTROL_HARD_RESET_SERVER_V1 = false)
  /\ (P_CONTROL_HARD_RESET_CLIENT_V1 = 1 /\ P_CONTROL_HARD_RESET_SERVER_V1 = 2
      /\ P_CONTROL_SOFT_RESET_V1 = 3 /\ P_CONTROL_V1 = 4 /\ P_ACK_V1 = 5
      /\ P_DATA_V1 = 6 /\ P_DATA_V2 = 9
      /\ P_CONTROL_HARD_RESET_CLIENT_V2 = 7
      /\ P_CONTROL_HARD_RESET_SERVER_V2 = 8
      /\ P_CONTROL_HARD_RESET_CLIENT_V3 = 10).
Proof.
  intros Hc Hop Hk.
  split; [|split; [|split; [|split; [|split; [|split]]]]].
  - rewrite header_opcode_div, header_key_id_mod.
    pose proof (Z.div_mod c 8 ltac:(lia)).
    pose proof (Z.mod_pos_bound c 8 ltac:(lia)).
    assert (0 <= c / 8 < 32)
      by (split; [apply Z.div_pos; lia | apply Z.div_lt_upper_bound; lia]).
    lia.
  - intros i Hi. unfold header_opcode, P_OPCODE_SHIFT.
    now rewrite Z.shiftr_spec by lia.
  - intros i Hi. unfold header_key_id, P_KEY_ID_MASK.
    rewrite Z.land_spec. change 7 with (Z.ones 3).
    rewrite Z.ones_spec_low by lia. apply andb_true_r.
  - rewrite header_opcode_div, header_key_id_mod, packet_header_value by assumption.
    repeat split; try lia.
    + rewrite Z.div_add_l by lia. rewrite Z.div_small by lia. lia.
    + rewrite Z.add_comm, Z.mod_add by lia. apply Z.mod_small. lia.
  - unfold opcode_legal, P_FIRST_OPCODE, P_LAST_OPCODE.
    rewrite andb_true_iff, !Z.leb_le. reflexivity.
  - repeat split.
  - repeat split.
Qed.

Lemma header_byte_layout_witness :
  header_opcode (packet_header 7 0) = 7
  /\ header_key_id (packet_header 7 0) = 0
  /\ packet_header 7 0 = 56.
Proof.
  split; [|split].
  - apply (header_byte_layout 56 7 0); lia.
  - apply (header_byte_layout 56 7 0); lia.
  - reflexivity.
Defined.

(** ** The opcode names *)

Lemma packet_opcode_name_default (op : Z) :
  op < 1 \/ 10 < op -> packet_opcode_name op = "P_???"%string.
Proof.
  intros H. unfold packet_opcode_name.
  repeat match goal with
  | |- context [?a =? ?b] =>
      let E := fresh in
      destruct (Z.eqb_spec a b) as [E|E];
      [ exfalso; revert E;
        unfold P_CONTROL_HARD_RESET_CLIENT_V1, P_CONTROL_HARD_RESET_SERVER_V1,
          P_CONTROL_SOFT_RESET_V1, P_CONTROL_V1, P_ACK_V1, P_DATA_V1, P_DATA_V2,
          P_CONTROL_HARD_RESET_CLIENT_V2, P_CONTROL_HARD_RESET_SERVER_V2,
          P_CONTROL_HARD_RESET_CLIENT_V3; lia
      | clear E ]
  end.
  reflexivity.
Qed.

Lemma opcode_in_1_10 (op : Z) : 1 <= op <= 10 -> In op named_opcodes.
Proof.
  intros H.
  assert (op = 1 \/ op = 2 \/ op = 3 \/ op = 4 \/ op = 5 \/ op = 6 \/ op = 7
          \/ op = 8 \/ op = 9 \/ op = 10) as E by lia.
  repeat (destruct E as [->|E]; [cbn; tauto|]). subst. cbn. tauto.
Qed.

(** Claim C10.  [packet_opcode_name] is defined on every integer; each of the
    opcodes 1 to 10 has its own name, the ten names are pairwise distinct,
    and every other integer, and no opcode from 1 to 10, is named
    "P_???". *)
Theorem packet_opcode_name_total (op : Z) :
  map packet_opcode_name named_opcodes
  = [ "P_CONTROL_HARD_RESET_CLIENT_V1"; "P_CONTROL_HARD_RESET_SERVER_V1";
      "P_CONTROL_SOFT_RESET_V1"; "P_CONTROL_V1"; "P_ACK_V1"; "P_DATA_V1";
      "P_CONTROL_HARD_RESET_CLIENT_V2"; "P_CONTROL_HARD_RESET_SERVER_V2";
      "P_DATA_V2"; "P_CONTROL_HARD_RESET_CLIENT_V3" ]%string
  /\ named_opcodes = [1; 2; 3; 4; 5; 6; 7; 8; 9; 10]
  /\ NoDup (map packet_opcode_name named_opcodes)
  /\ (exists name, packet_opcode_name op = name)
  /\ (packet_opcode_name op = "P_???"%string <-> (op < 1 \/ 10 < op)).
Proof.
  split; [reflexivity|]. split; [reflexivity|]. split; [|split].
  - vm_compute.
    repeat (constructor; [cbn; intuition discriminate|]). constructor.
  - eexists; reflexivity.
  - split.
    + intros H. destruct (Z_lt_le_dec op 1) as [|H1]; [now left|].
      destruct (Z_lt_le_dec 10 op) as [|H2]; [now right|].
      exfalso. pose proof (opcode_in_1_10 op (conj H1 H2)) as Hin.
      cbn in Hin.
      repeat (destruct Hin as [<-|Hin]; [vm_compute in H; discriminate|]).
      exact Hin.
    + apply packet_opcode_name_default.
Qed.

Lemma packet_opcode_name_total_witness :
  packet_opcode_name 11 = "P_???"%string
  /\ packet_opcode_name 0 = "P_???"%string
  /\ packet_opcode_name 7 = "P_CONTROL_HARD_RESET_CLIENT_V2"%string.
Proof.
  split; [|split].
  - apply (packet_opcode_name_total 11). right. lia.
  - apply (packet_opcode_name_total 0). left. lia.
  - reflexivity.
Defined.

(** ** The DCO stubs *)

(** Claim C9 as stated fails: [dco_do_read] neither is a no-op nor reports
    anything to its caller; it dies on [ASSERT(false)]. *)
Lemma dco_do_read_is_fatal :
  Dco.run unit Dco.Op_dco_do_read tt = Fatal
  /\ ~ Dco.noop_or_report unit Dco.Op_dco_do_read tt.
Proof.
  split; [reflexivity|]. intros [r H]. discriminate H.
Qed.

(** Claim C9, amended.  Without [ENABLE_DCO], [dco_do_read], [dco_do_write]
    and [dco_update_keys] fail a fatal assertion when called; each of the
    other fourteen operations returns its fixed value and leaves everything
    as it was, [dco_available] and [dco_check_option_conflict] answering
    [false]. *)
Theorem dco_stubs_without_dco (world : Type) (op : Dco.dco_op) (w : world) :
  (Dco.asserts_false op = true -> Dco.run world op w = Fatal)
  /\ (Dco.asserts_false op = false ->
      Dco.run world op w = Returned (Dco.stub_value op, w)
      /\ Dco.noop_or_report world op w)
  /\ (forall l, Dco.dco_available world l w = Returned (Dco.RBool false, w))
  /\ (forall l, Dco.dco_check_option_conflict world l w
                = Returned (Dco.RBool false, w))
  /\ (Dco.asserts_false op = true <->
      op = Dco.Op_dco_do_read \/ (exists p b, op = Dco.Op_dco_do_write p b)
      \/ op = Dco.Op_dco_update_keys).
Proof.
  split; [|split; [|split; [|split]]].
  - destruct op; cbn; intros H; try discriminate H; reflexivity.
  - destruct op; cbn; intros H; try discriminate H;
      (split; [reflexivity | eexists; reflexivity]).
  - intros l. reflexivity.
  - intros l. reflexivity.
  - split.
    + destruct op; cbn; intros H; try discriminate H; eauto.
    + intros [->|[(p & b & ->)| ->]]; reflexivity.
Qed.

Lemma dco_stubs_without_dco_witness :
  Dco.run unit (Dco.Op_dco_available 0) tt = Returned (Dco.RBool false, tt)
  /\ Dco.run unit Dco.Op_dco_update_keys tt = Fatal.
Proof.
  split.
  - apply (proj1 (proj2 (dco_stubs_without_dco unit (Dco.Op_dco_available 0) tt))).
    reflexivity.
  - apply (proj1 (dco_stubs_without_dco unit Dco.Op_dco_update_keys tt)).
    reflexivity.
Defined.

(** ** The record codec: bytes and buffers *)


Lemma bytes_eqb_eq (a b : list Z) : bytes_eqb a b = true <-> a = b.
Proof.
  revert b. induction a as [|x a IH]; intros [|y b]; cbn; split;
    try reflexivity; try discriminate.
  - rewrite andb_true_iff, Z.eqb_eq, IH. intros [-> ->]. reflexivity.
  - intros E. injection E as -> ->. rewrite Z.eqb_refl. cbn. now apply IH.
Qed.

Lemma bytes_eqb_refl (a : list Z) : bytes_eqb a a = true.
Proof. now apply bytes_eqb_eq. Qed.

Lemma bytes_eqb_neq (a b : list Z) : a <> b -> bytes_eqb a b = false.
Proof.
  intros H. destruct (bytes_eqb a b) eqn:E; [|reflexivity].
  apply bytes_eqb_eq in E. contradiction.
Qed.

Lemma buf_read_app (n : nat) (x rest : list Z) :
  length x = n -> buf_read n (x ++ rest) = Some (x, rest).
Proof.
  intros <-. unfold buf_read.
  rewrite length_app.
  destruct (Nat.leb_spec (length x) (length x + length rest)); [|lia].
  rewrite firstn_app, Nat.sub_diag, firstn_all, firstn_O, app_nil_r.
  rewrite skipn_app, Nat.sub_diag, skipn_all. reflexivity.
Qed.

Lemma buf_read_split (n : nat) (d x rest : list Z) :
  buf_read n d = Some (x, rest) -> d = x ++ rest /\ length x = n.
Proof.
  unfold buf_read. destruct (Nat.leb_spec n (length d)); [|discriminate].
  intros E. injection E as <- <-. split.
  - symmetry. apply firstn_skipn.
  - apply firstn_length_le. assumption.
Qed.

Lemma buf_write_prepend_ok (b : buffer) (x : list Z) :
  (length x <= buf_headroom b)%nat ->
  buf_write_prepend b x
  = Some (mk_buffer (buf_headroom b - length x) (x ++ buf_data b)).
Proof.
  intros H. unfold buf_write_prepend.
  destruct (Nat.leb_spec (length x) (buf_headroom b)); [reflexivity|lia].
Qed.

Lemma put_u32_length (z : Z) : length (put_u32 z) = 4%nat.
Proof. reflexivity. Qed.

(** One byte of a 32-bit value put back in its place. *)
Lemma byte_lane_bit (z k n : Z) :
  0 <= k -> 0 <= n ->
  Z.testbit (Z.shiftl (Z.land (Z.shiftr z k) 255) k) n
  = Z.testbit z n && ((k <=? n) && (n <? k + 8)).
Proof.
  intros Hk Hn. rewrite Z.shiftl_spec by lia.
  destruct (Z.leb_spec k n) as [Hkn|Hkn].
  - rewrite Z.land_spec, Z.shiftr_spec by lia.
    replace (n - k + k) with n by lia. f_equal. cbn [andb].
    change 255 with (Z.ones 8).
    destruct (Z.ltb_spec n (k + 8)).
    + apply Z.ones_spec_low. lia.
    + apply Z.ones_spec_high. lia.
  - rewrite Z.testbit_neg_r by lia. cbn. now rewrite andb_false_r.
Qed.

Lemma get_put_u32 (z : Z) : get_u32 (put_u32 z) = u32_wrap z.
Proof.
  unfold get_u32, put_u32, u32_wrap.
  apply Z.bits_inj'. intros n Hn.
  replace (Z.land z 255) with (Z.shiftl (Z.land (Z.shiftr z 0) 255) 0)
    by (now rewrite Z.shiftl_0_r, Z.shiftr_0_r).
  rewrite !Z.lor_spec, !byte_lane_bit, Z.land_spec by lia.
  destruct (Z.testbit z n); cbn [andb orb]; [|reflexivity].
  destruct (Z.ltb_spec n 32).
  - rewrite Z.ones_spec_low by lia.
    destruct (Z.leb_spec 24 n), (Z.leb_spec 16 n), (Z.leb_spec 8 n),
      (Z.leb_spec 0 n), (Z.ltb_spec n (24 + 8)), (Z.ltb_spec n (16 + 8)),
      (Z.ltb_spec n (8 + 8)), (Z.ltb_spec n (0 + 8)); cbn; try reflexivity; lia.
  - rewrite Z.ones_spec_high by lia.
    destruct (Z.ltb_spec n (24 + 8)), (Z.ltb_spec n (16 + 8)),
      (Z.ltb_spec n (8 + 8)), (Z.ltb_spec n (0 + 8));
      rewrite ?andb_false_r; cbn; try reflexivity; lia.
Qed.

(** ** The replay window *)

(** An id below the window, or already marked in it, is refused. *)
Lemma replay_check_rejects (w : replay_window) (id : Z) :
  id <= rw_highest w ->
  rw_size w <= rw_highest w - id \/ Z.testbit (rw_seen w) (rw_highest w - id) = true ->
  replay_check w id = None.
Proof.
  intros Hle H. unfold replay_check.
  destruct (Z.ltb_spec (rw_highest w) id); [lia|].
  destruct (Z.leb_spec (rw_size w) (rw_highest w - id)); [reflexivity|].
  destruct H as [H| ->]; [lia|reflexivity].
Qed.

(** An id that has just been accepted is refused when it comes again. *)
Lemma replay_check_twice (w w' : replay_window) (id : Z) :
  replay_check w id = Some w' -> replay_check w' id = None.
Proof.
  unfold replay_check at 1.
  destruct (Z.ltb_spec (rw_highest w) id) as [Hlt|Hge].
  - intros E. injection E as <-. apply replay_check_rejects; cbn; [lia|].
    rewrite Z.sub_diag.
    destruct (Z.leb_spec (rw_size w) 0) as [Hs|Hs]; [left; lia|right].
    rewrite Z.land_spec, Z.lor_spec, Z.ones_spec_low by lia.
    change (Z.testbit 1 0) with true. now rewrite orb_true_r.
  - destruct (Z.leb_spec (rw_size w) (rw_highest w - id)); [discriminate|].
    destruct (Z.testbit (rw_seen w) (rw_highest w - id)); [discriminate|].
    intros E. injection E as <-. apply replay_check_rejects; cbn; [lia|].
    right. rewrite Z.lor_spec, Z.shiftl_spec by lia.
    rewrite Z.sub_diag. change (Z.testbit 1 0) with true. apply orb_true_r.
Qed.

(** A window that has seen nothing accepts every id from 0 on. *)
Lemma replay_init_accepts (size id : Z) :
  0 < size -> 0 <= id -> exists w, replay_check (replay_init size) id = Some w.
Proof.
  intros Hs Hid. unfold replay_check, replay_init. cbn.
  destruct (Z.ltb_spec 0 id); [eexists; reflexivity|].
  assert (id = 0) as -> by lia. cbn.
  destruct (Z.leb_spec size 0); [lia|]. eexists; reflexivity.
Qed.

(** The sequence 5, 3, 9, 3 on a window of 64 ids: accepted, accepted,
    accepted, refused. *)
Example replay_sequence_5_3_9_3 :
  exists w1 w2 w3,
    replay_check (replay_init 64) 5 = Some w1
    /\ replay_check w1 3 = Some w2
    /\ replay_check w2 9 = Some w3
    /\ replay_check w3 3 = None.
Proof. do 3 eexists. repeat split. Qed.

(** ** The record codec: writing, reading, classifying *)

Section CodecProofs.

Variable P : crypto_provider.
Variable W : wire_params.

Lemma parse_record_plain (header : Z) (sid text : list Z) :
  length sid = SID_SIZE W ->
  parse_record P W WRAP_PLAIN ([header] ++ sid ++ text)
  = Some (mk_wire_record header sid [] [] [] text).
Proof.
  intros Hs. cbn. now rewrite (buf_read_app _ sid text Hs).
Qed.

Lemma parse_record_authenticate (header : Z) (sid pid ts mac text : list Z) :
  length sid = SID_SIZE W -> length pid = 4%nat -> length ts = 4%nat ->
  length mac = hmac_size P ->
  parse_record P W WRAP_AUTHENTICATE ([header] ++ sid ++ pid ++ ts ++ mac ++ text)
  = Some (mk_wire_record header sid pid ts mac text).
Proof.
  intros Hs Hp Ht Hm. cbn.
  rewrite (buf_read_app _ sid _ Hs), (buf_read_app _ pid _ Hp),
    (buf_read_app _ ts _ Ht), (buf_read_app _ mac _ Hm).
  reflexivity.
Qed.

Lemma parse_record_encrypt (header : Z) (sid pid ts text : list Z) :
  length sid = SID_SIZE W -> length pid = 4%nat -> length ts = 4%nat ->
  parse_record P W WRAP_ENCRYPT_AUTHENTICATE ([header] ++ sid ++ pid ++ ts ++ text)
  = Some (mk_wire_record header sid pid ts [] text).
Proof.
  intros Hs Hp Ht. cbn.
  rewrite (buf_read_app _ sid _ Hs), (buf_read_app _ pid _ Hp),
    (buf_read_app _ ts _ Ht).
  reflexivity.
Qed.

(** What [read_control_auth] answers is decided by [unwrap_control]. *)
Lemma read_control_auth_fail (buf : buffer) (ctx : tls_wrap_ctx P) :
  unwrap_control P W (key_peer ctx) ctx (buf_data buf) = None ->
  read_control_auth P W buf ctx = (false, buf, ctx).
Proof. intros H. unfold read_control_auth. now rewrite H. Qed.

Lemma read_control_auth_false (buf : buffer) (ctx : tls_wrap_ctx P) :
  fst (fst (read_control_auth P W buf ctx)) = false ->
  read_control_auth P W buf ctx = (false, buf, ctx).
Proof.
  unfold read_control_auth.
  destruct (unwrap_control P W (key_peer ctx) ctx (buf_data buf))
    as [[[text ctx'] r]|]; cbn; [discriminate|reflexivity].
Qed.

Lemma buf_write_prepend_data (b b' : buffer) (x : list Z) :
  buf_write_prepend b x = Some b' -> buf_data b' = x ++ buf_data b.
Proof.
  unfold buf_write_prepend.
  destruct (length x <=? buf_headroom b)%nat; [|discriminate].
  intros E. injection E as <-. reflexivity.
Qed.

(** The writer returns when the buffer has the headroom for the
    acknowledgement block and the wrap header. *)
Lemma write_control_auth_returns (session : tls_session P) (ks : key_state)
    (buf : buffer) (opcode max_ack : Z) (prepend_ack : bool) (now : Z) :
  crypto_laws P ->
  length (session_id session) = SID_SIZE W ->
  (length (ack_block ks max_ack prepend_ack)
   + wrap_overhead P W (wrap_mode (tls_wrap session)) <= buf_headroom buf)%nat ->
  exists record session' ks',
    write_control_auth P session ks buf opcode max_ack prepend_ack now
    = Returned (record, session', ks').
Proof.
  intros [Hlen _] Hsid Hroom. unfold write_control_auth.
  rewrite (buf_write_prepend_ok buf (ack_block ks max_ack prepend_ack)) by lia.
  destruct (wrap_mode (tls_wrap session)); cbn [wrap_overhead] in Hroom.
  - rewrite buf_write_prepend_ok
      by (cbn [buf_headroom]; rewrite length_app; cbn [length]; lia).
    do 3 eexists. reflexivity.
  - rewrite buf_write_prepend_ok
      by (cbn [buf_headroom]; rewrite !length_app, Hlen, !put_u32_length;
          cbn [length]; lia).
    do 3 eexists. reflexivity.
  - rewrite buf_write_prepend_ok
      by (cbn [buf_headroom]; rewrite !length_app, !put_u32_length;
          cbn [length]; lia).
    do 3 eexists. reflexivity.
Qed.

(** A written record read back: the reader gets the text that the writer
    wrapped, that is the acknowledgement block followed by the payload.  The
    replay window is consulted in the two authenticated modes only. *)
Lemma unwrap_written (session : tls_session P) (ks : key_state) (buf : buffer)
    (opcode max_ack : Z) (prepend_ack : bool) (now : Z)
    (reader : tls_wrap_ctx P) (record : buffer) (session' : tls_session P)
    (ks' : key_state) :
  crypto_laws P ->
  length (session_id session) = SID_SIZE W ->
  wrap_mode reader = wrap_mode (tls_wrap session) ->
  (wrap_mode (tls_wrap session) <> WRAP_PLAIN ->
   replay_check (recv_window reader)
     (u32_wrap (send_packet_id (tls_wrap session))) <> None) ->
  write_control_auth P session ks buf opcode max_ack prepend_ack now
  = Returned (record, session', ks') ->
  exists reader' r,
    unwrap_control P W (key_local (tls_wrap session)) reader (buf_data record)
    = Some (ack_block ks max_ack prepend_ack ++ buf_data buf, reader', r)
    /\ r_sid r = session_id session
    /\ r_header r = packet_header opcode (key_id ks).
Proof.
  intros [Hlen Hdec] Hsid Hmode Hreplay Hw.
  unfold write_control_auth in Hw.
  set (acks := ack_block ks max_ack prepend_ack) in *.
  destruct (buf_write_prepend buf acks) as [inner|] eqn:Einner; [|discriminate].
  apply buf_write_prepend_data in Einner.
  unfold unwrap_control, replay_record. rewrite Hmode.
  destruct (wrap_mode (tls_wrap session)) eqn:Emode.
  - destruct (buf_write_prepend inner _) as [out|] eqn:Eout; [|discriminate].
    apply buf_write_prepend_data in Eout.
    injection Hw as <- _ _. rewrite Eout, Einner.
    rewrite <- !app_assoc, (parse_record_plain _ _ _ Hsid).
    do 2 eexists. cbn. repeat split.
  - destruct (buf_write_prepend inner _) as [out|] eqn:Eout; [|discriminate].
    apply buf_write_prepend_data in Eout.
    injection Hw as <- _ _. rewrite Eout, Einner.
    rewrite <- !app_assoc.
    rewrite (parse_record_authenticate _ _ _ _ _ _ Hsid
               (put_u32_length _) (put_u32_length _) (Hlen _ _)).
    cbn [verify_record r_mac r_pid r_ts r_text r_sid r_header].
    rewrite bytes_eqb_refl, get_put_u32.
    destruct (replay_check (recv_window reader)
                (u32_wrap (send_packet_id (tls_wrap session)))) as [w'|];
      [|exfalso; apply Hreplay; [discriminate|reflexivity]].
    do 2 eexists. repeat split.
  - destruct (buf_write_prepend (mk_buffer (buf_headroom inner) _) _)
      as [out|] eqn:Eout; [|discriminate].
    apply buf_write_prepend_data in Eout. cbn [buf_data] in Eout.
    injection Hw as <- _ _. rewrite Eout, Einner.
    rewrite <- !app_assoc.
    rewrite (parse_record_encrypt _ _ _ _ _ Hsid
               (put_u32_length _) (put_u32_length _)).
    cbn [verify_record r_mac r_pid r_ts r_text r_sid r_header].
    rewrite Hdec, get_put_u32.
    destruct (replay_check (recv_window reader)
                (u32_wrap (send_packet_id (tls_wrap session)))) as [w'|];
      [|exfalso; apply Hreplay; [discriminate|reflexivity]].
    do 2 eexists. repeat split.
Qed.

(** Claim C2 as stated fails: with two acknowledgements pending and
    [prepend_ack] set, the reader of each of the three modes, holding the
    writer's key, gets back the acknowledgement block in front of the three
    bytes of the payload, fourteen bytes in all. *)
Lemma read_write_control_auth_keeps_ack_block :
  ~ toy_roundtrip_exact WRAP_PLAIN
  /\ ~ toy_roundtrip_exact WRAP_AUTHENTICATE
  /\ ~ toy_roundtrip_exact WRAP_ENCRYPT_AUTHENTICATE.
Proof.
  assert (H : forall mode,
             toy_roundtrip_exact mode ->
             toy_read_back mode = Some (buf_data toy_payload)).
  { intros mode (record & session' & ks' & out & reader' & Hw & Hr & Hd).
    unfold toy_read_back. rewrite Hw, Hr, Hd. reflexivity. }
  split; [|split]; intros Hx; apply H in Hx; vm_compute in Hx; discriminate Hx.
Qed.

(** Claim C2, amended.  In each of the three wrap modes, when the reader
    verifies with the key the writer wrapped with and, in the two
    authenticated modes, its replay window does not refuse the packet id of
    the record, [read_control_auth] applied to the record written by
    [write_control_auth] succeeds and leaves in the buffer the
    acknowledgement block the writer put in front, followed by exactly the
    bytes of [buf]; it leaves the bytes of [buf] and nothing else when no
    acknowledgement block is written.  The writer returns a record whenever
    [buf] has the headroom for the block and the wrap header. *)
Theorem read_write_control_auth_roundtrip (session : tls_session P)
    (ks : key_state) (buf : buffer) (opcode max_ack : Z) (prepend_ack : bool)
    (now : Z) (reader : tls_wrap_ctx P) :
  crypto_laws P ->
  length (session_id session) = SID_SIZE W ->
  wrap_mode reader = wrap_mode (tls_wrap session) ->
  key_peer reader = key_local (tls_wrap session) ->
  (wrap_mode (tls_wrap session) <> WRAP_PLAIN ->
   replay_check (recv_window reader)
     (u32_wrap (send_packet_id (tls_wrap session))) <> None) ->
  ((length (ack_block ks max_ack prepend_ack)
    + wrap_overhead P W (wrap_mode (tls_wrap session)) <= buf_headroom buf)%nat ->
   exists record session' ks',
     write_control_auth P session ks buf opcode max_ack prepend_ack now
     = Returned (record, session', ks'))
  /\ (forall record session' ks',
        write_control_auth P session ks buf opcode max_ack prepend_ack now
        = Returned (record, session', ks') ->
        exists out reader',
          read_control_auth P W record reader = (true, out, reader')
          /\ buf_data out = ack_block ks max_ack prepend_ack ++ buf_data buf
          /\ (ack_block ks max_ack prepend_ack = [] ->
              buf_data out = buf_data buf)
          /\ (prepend_ack = false -> buf_data out = buf_data buf)
          /\ (rec_ack ks = [] -> buf_data out = buf_data buf)).
Proof.
  intros Laws Hsid Hmode Hkey Hreplay. split.
  - intros Hroom. now apply write_control_auth_returns.
  - intros record session' ks' Hw.
    destruct (unwrap_written session ks buf opcode max_ack prepend_ack now
                reader record session' ks' Laws Hsid Hmode Hreplay Hw)
      as (reader' & r & Hu & _).
    unfold read_control_auth. rewrite Hkey, Hu.
    do 2 eexists. split; [reflexivity|]. cbn [buf_data].
    split; [reflexivity|]. split; [|split].
    + intros ->. reflexivity.
    + intros ->. unfold ack_block. now destruct (rec_ack ks).
    + intros E. unfold ack_block. now rewrite E.
Qed.

(** Claim C3.  [read_control_auth] answers false, and hands back the buffer
    and the wrap context (with its replay window) exactly as it received
    them, when the record is too short to parse, when the HMAC received
    differs from the HMAC recomputed with the peer key, when decryption
    fails, and when the replay window refuses the packet id, as it does for
    an id below the window or already marked in it; and whenever it answers
    false, buffer and context are unchanged. *)
Theorem read_control_auth_rejects (buf : buffer) (ctx : tls_wrap_ctx P) :
  let failed := read_control_auth P W buf ctx = (false, buf, ctx) in
  let mode := wrap_mode ctx in
  (fst (fst (read_control_auth P W buf ctx)) = false -> failed)
  /\ (parse_record P W mode (buf_data buf) = None -> failed)
  /\ (forall r, parse_record P W mode (buf_data buf) = Some r ->
        (mode = WRAP_AUTHENTICATE ->
         r_mac r <> hmac P (key_peer ctx) (r_pid r ++ r_ts r ++ r_text r) ->
         failed)
        /\ (mode = WRAP_ENCRYPT_AUTHENTICATE ->
            decrypt P (key_peer ctx) (r_pid r ++ r_ts r) (r_text r) = None ->
            failed)
        /\ (mode <> WRAP_PLAIN ->
            replay_check (recv_window ctx) (get_u32 (r_pid r)) = None ->
            failed)
        /\ (mode <> WRAP_PLAIN ->
            get_u32 (r_pid r) <= rw_highest (recv_window ctx) ->
            rw_size (recv_window ctx)
              <= rw_highest (recv_window ctx) - get_u32 (r_pid r)
            \/ Z.testbit (rw_seen (recv_window ctx))
                 (rw_highest (recv_window ctx) - get_u32 (r_pid r)) = true ->
            failed)).
Proof.
  intros failed mode. subst failed mode.
  split; [apply read_control_auth_false|].
  split.
  - intros Hp. apply read_control_auth_fail. unfold unwrap_control. now rewrite Hp.
  - intros r Hp.
    assert (Hreplay : wrap_mode ctx <> WRAP_PLAIN ->
                      replay_check (recv_window ctx) (get_u32 (r_pid r)) = None ->
                      read_control_auth P W buf ctx = (false, buf, ctx)).
    { intros Hm Hr. apply read_control_auth_fail.
      unfold unwrap_control, replay_record. rewrite Hp, Hr.
      destruct (verify_record P (key_peer ctx) (wrap_mode ctx) r);
        [|reflexivity].
      destruct (wrap_mode ctx); [contradiction|reflexivity|reflexivity]. }
    split; [|split; [|split]].
    + intros Hm Hmac. apply read_control_auth_fail.
      unfold unwrap_control. rewrite Hp, Hm. cbn.
      now rewrite (bytes_eqb_neq _ _ Hmac).
    + intros Hm Hdec. apply read_control_auth_fail.
      unfold unwrap_control. rewrite Hp, Hm. cbn. now rewrite Hdec.
    + exact Hreplay.
    + intros Hm Hle Hold. apply (Hreplay Hm).
      now apply replay_check_rejects.
Qed.

(** The classifier refuses a datagram whose first byte fails step 2. *)
Lemma tls_pre_decrypt_lite_bad_opcode (m : lite_store P) (c : Z) (rest : list Z) :
  buf_data (st_buf m) = c :: rest ->
  opcode_check c = false ->
  tls_pre_decrypt_lite P W m = (VERDICT_INVALID, m).
Proof.
  intros Hd Hc. unfold tls_pre_decrypt_lite.
  destruct (size_check P W (st_tas m) (st_buf m)); [|reflexivity].
  cbn [negb]. rewrite Hd, Hc. reflexivity.
Qed.

Lemma opcode_legal_iff (op : Z) : opcode_legal op = true <-> 3 <= op <= 10.
Proof.
  unfold opcode_legal, P_FIRST_OPCODE, P_LAST_OPCODE.
  now rewrite andb_true_iff, !Z.leb_le.
Qed.

(** Claim C1.  [tls_pre_decrypt_lite] returns, for every store, one of the
    three verdicts; a datagram whose leading byte carries an opcode outside
    3..10, and a datagram with no byte at all, is [VERDICT_INVALID] and
    leaves the store as it was; every opcode from 3 to 10 is legal, and with
    key-id 0 its header byte passes the opcode check of step 2. *)
Theorem tls_pre_decrypt_lite_verdict (m : lite_store P) (c op : Z)
    (rest : list Z) :
  (fst (tls_pre_decrypt_lite P W m) = VERDICT_VALID_RESET
   \/ fst (tls_pre_decrypt_lite P W m) = VERDICT_VALID_CONTROL_V1
   \/ fst (tls_pre_decrypt_lite P W m) = VERDICT_INVALID)
  /\ (buf_data (st_buf m) = c :: rest ->
      ~ (3 <= header_opcode c <= 10) ->
      tls_pre_decrypt_lite P W m = (VERDICT_INVALID, m))
  /\ (buf_data (st_buf m) = [] ->
      tls_pre_decrypt_lite P W m = (VERDICT_INVALID, m))
  /\ (3 <= op <= 10 ->
      opcode_legal op = true /\ opcode_check (packet_header op 0) = true)
  /\ (fst (tls_pre_decrypt_lite P W m) <> VERDICT_INVALID ->
      exists c' rest', buf_data (st_buf m) = c' :: rest'
                       /\ 3 <= header_opcode c' <= 10).
Proof.
  split; [|split; [|split; [|split]]].
  - destruct (fst (tls_pre_decrypt_lite P W m)); tauto.
  - intros Hd Hop. apply (tls_pre_decrypt_lite_bad_opcode m c rest Hd).
    unfold opcode_check.
    destruct (opcode_legal (header_opcode c)) eqn:E; [|reflexivity].
    apply opcode_legal_iff in E. contradiction.
  - intros Hd. unfold tls_pre_decrypt_lite. rewrite Hd.
    now destruct (negb (size_check P W (st_tas m) (st_buf m))).
  - intros Hop. split; [now apply opcode_legal_iff|].
    unfold opcode_check.
    rewrite header_opcode_div, header_key_id_mod, packet_header_value by lia.
    rewrite Z.div_add_l, Z.div_small, Z.add_0_r by lia.
    rewrite Z.add_comm, Z.mod_add, Z.mod_small by lia.
    rewrite (proj2 (opcode_legal_iff op) Hop). cbn. apply orb_true_r.
  - intros Hv.
    destruct (buf_data (st_buf m)) as [|c' rest'] eqn:Hd.
    + exfalso. apply Hv. unfold tls_pre_decrypt_lite. rewrite Hd.
      now destruct (negb (size_check P W (st_tas m) (st_buf m))).
    + exists c', rest'. split; [reflexivity|].
      destruct (opcode_check c') eqn:Hc.
      * unfold opcode_check in Hc. apply andb_true_iff in Hc.
        now apply opcode_legal_iff.
      * exfalso. apply Hv.
        now rewrite (tls_pre_decrypt_lite_bad_opcode m c' rest' Hd Hc).
Qed.

(** Claim C4.  For every store, a call of [tls_pre_decrypt_lite] leaves the
    standalone configuration and the packet buffer as they were: the store
    after the call is the store before it with, at most, another scratch
    state. *)
Theorem tls_pre_decrypt_lite_frame (m : lite_store P) :
  st_tas (snd (tls_pre_decrypt_lite P W m)) = st_tas m
  /\ st_buf (snd (tls_pre_decrypt_lite P W m)) = st_buf m
  /\ exists s, snd (tls_pre_decrypt_lite P W m) = store_state m s.
Proof.
  assert (H : exists s, snd (tls_pre_decrypt_lite P W m) = store_state m s).
  { unfold tls_pre_decrypt_lite.
    destruct (negb (size_check P W (st_tas m) (st_buf m)));
      [exists (st_state m); now destruct m|].
    destruct (buf_data (st_buf m)) as [|c rest];
      [exists (st_state m); now destruct m|].
    destruct (negb (opcode_check c)); [exists (st_state m); now destruct m|].
    destruct (is_hard_reset (header_opcode c) || is_control_class (header_opcode c));
      [|exists (st_state m); now destruct m].
    destruct (unwrap_control P W _ _ _) as [[[text tmp'] r]|];
      eexists; reflexivity. }
  destruct H as [s Hs]. rewrite Hs. cbn. eauto.
Qed.

End CodecProofs.

(** ** The theorems at work on the small provider *)

Lemma toy_provider_laws : crypto_laws toy_provider.
Proof.
  split.
  - reflexivity.
  - intros k ad m. cbn. unfold toy_decrypt, toy_encrypt, toy_hmac. cbn.
    now rewrite Z.eqb_refl.
Qed.

(** The classifier on well-formed records: a hard reset signed with the
    server's key is a valid reset and yields the session id of the peer, a
    control packet is a valid control packet, the same reset under another
    key is invalid, and so is a data packet. *)
Example tls_pre_decrypt_lite_samples :
  buf_data (toy_record 7)
  = [56; 170; 187; 0; 0; 0; 1; 0; 0; 3; 232; 59;
     2; 0; 0; 0; 3; 0; 0; 0; 4; 1; 2; 10; 20; 30]
  /\ fst (tls_pre_decrypt_lite toy_provider toy_params (toy_store 7 7))
     = VERDICT_VALID_RESET
  /\ peer_session_id
       (st_state (snd (tls_pre_decrypt_lite toy_provider toy_params (toy_store 7 7))))
     = [170; 187]
  /\ fst (tls_pre_decrypt_lite toy_provider toy_params (toy_store 7 4))
     = VERDICT_VALID_CONTROL_V1
  /\ fst (tls_pre_decrypt_lite toy_provider toy_params (toy_store 9 7))
     = VERDICT_INVALID
  /\ fst (tls_pre_decrypt_lite toy_provider toy_params (toy_store 7 6))
     = VERDICT_INVALID.
Proof. repeat split. Qed.

Lemma read_write_control_auth_roundtrip_witness :
  toy_roundtrip WRAP_PLAIN /\ toy_roundtrip WRAP_AUTHENTICATE
  /\ toy_roundtrip WRAP_ENCRYPT_AUTHENTICATE.
Proof.
  assert (H : forall mode, toy_roundtrip mode).
  { intros mode.
    destruct (read_write_control_auth_roundtrip toy_provider toy_params
                (toy_session mode) toy_key_state toy_payload 7 4 true 1000
                (toy_ctx mode))
      as (Hret & Hread).
    - exact toy_provider_laws.
    - reflexivity.
    - reflexivity.
    - reflexivity.
    - intros _. vm_compute. discriminate.
    - destruct Hret as (record & session' & ks' & Hw);
        [destruct mode; vm_compute; lia|].
      destruct (Hread record session' ks' Hw)
        as (out & reader' & Hr & Hd & _).
      exists record, session', ks', out, reader'. auto. }
  repeat split; apply H.
Defined.

Lemma read_control_auth_rejects_witness :
  read_control_auth toy_provider toy_params toy_tampered
    (toy_ctx WRAP_AUTHENTICATE)
  = (false, toy_tampered, toy_ctx WRAP_AUTHENTICATE).
Proof.
  destruct (read_control_auth_rejects toy_provider toy_params toy_tampered
              (toy_ctx WRAP_AUTHENTICATE)) as (_ & _ & H).
  destruct (H (mk_wire_record 56 [170; 187] [0; 0; 0; 1] [0; 0; 3; 232] [60]
                 [2; 0; 0; 0; 3; 0; 0; 0; 4; 1; 2; 10; 20; 30]) eq_refl)
    as (Hmac & _).
  apply Hmac.
  - reflexivity.
  - vm_compute. discriminate.
Defined.

Lemma tls_pre_decrypt_lite_verdict_witness :
  tls_pre_decrypt_lite toy_provider toy_params toy_store_v1
  = (VERDICT_INVALID, toy_store_v1)
  /\ opcode_check (packet_header 7 0) = true.
Proof.
  split.
  - apply (proj1 (proj2 (tls_pre_decrypt_lite_verdict toy_provider toy_params
                           toy_store_v1 8 7
                           [170; 187; 0; 0; 0; 1; 0; 0; 3; 232; 59; 10; 20; 30]))).
    + reflexivity.
    + vm_compute. intros [H _]. apply H. reflexivity.
  - apply (tls_pre_decrypt_lite_verdict toy_provider toy_params toy_store_v1 8 7 []).
    lia.
Defined.

(** ** Frame member adjustment: arithmetic modulo [2^32] *)

Lemma int_wrap_add_mul (z k : Z) : int_wrap (z + k * int_modulus) = int_wrap z.
Proof.
  unfold int_wrap. f_equal.
  replace (z + k * int_modulus - INT_MIN) with (z - INT_MIN + k * int_modulus) by lia.
  apply Z.mod_add. unfold int_modulus. lia.
Qed.

Lemma uint_wrap_eqm (z : Z) : exists k, uint_wrap z = z + k * int_modulus.
Proof.
  unfold uint_wrap. exists (- (z / int_modulus)).
  pose proof (Z.div_mod z int_modulus ltac:(unfold int_modulus; lia)). lia.
Qed.

Lemma int_wrap_uint_wrap (z : Z) : int_wrap (uint_wrap z) = int_wrap z.
Proof. destruct (uint_wrap_eqm z) as [k ->]. apply int_wrap_add_mul. Qed.

Lemma int_wrap_idem_sub (a b : Z) : int_wrap (int_wrap a - b) = int_wrap (a - b).
Proof.
  destruct (int_wrap_eqm a) as [k ->].
  replace (a + k * int_modulus - b) with (a - b + k * int_modulus) by lia.
  apply int_wrap_add_mul.
Qed.

Lemma int_wrap_idem_sub_r (a b : Z) : int_wrap (a - int_wrap b) = int_wrap (a - b).
Proof.
  destruct (int_wrap_eqm b) as [k ->].
  replace (a - (b + k * int_modulus)) with (a - b + (- k) * int_modulus) by lia.
  apply int_wrap_add_mul.
Qed.

Lemma int_add_unsigned_eq (x n : Z) : int_add_unsigned x n = int_wrap (x + n).
Proof.
  unfold int_add_unsigned. rewrite int_wrap_uint_wrap.
  destruct (uint_wrap_eqm x) as [k ->].
  replace (x + k * int_modulus + n) with (x + n + k * int_modulus) by lia.
  apply int_wrap_add_mul.
Qed.

Lemma int_sub_unsigned_eq (x n : Z) : int_sub_unsigned x n = int_wrap (x - n).
Proof.
  unfold int_sub_unsigned. rewrite int_wrap_uint_wrap.
  destruct (uint_wrap_eqm x) as [k ->].
  replace (x + k * int_modulus - n) with (x - n + k * int_modulus) by lia.
  apply int_wrap_add_mul.
Qed.

Lemma round_up_align_shift (z m : Z) :
  round_up_align (z + 4 * m) = round_up_align z + 4 * m.
Proof.
  unfold round_up_align, PAYLOAD_ALIGN.
  replace (- (z + 4 * m)) with (- z + (- m) * 4) by lia.
  rewrite Z.mod_add by lia. lia.
Qed.

Lemma round_up_align_monotone (a b : Z) :
  a <= b -> round_up_align a <= round_up_align b.
Proof.
  intros H. apply round_up_align_least.
  - pose proof (round_up_align_ge b). lia.
  - apply round_up_align_mod.
Qed.

(** The headroom of a frame whose base differs from that of [f] by [4 * m]
    and by a multiple of [2^32]. *)
Lemma frame_headroom_shift (f g : frame) (m j : Z) :
  headroom_base g = headroom_base f + 4 * m + j * int_modulus ->
  frame_headroom g = int_add (frame_headroom f) (4 * m).
Proof.
  intros H. rewrite !frame_headroom_wrap, H. unfold int_add.
  rewrite int_wrap_idem_add.
  replace (headroom_base f + 4 * m + j * int_modulus)
    with (headroom_base f + 4 * (m + j * 1073741824))
    by (unfold int_modulus; lia).
  rewrite round_up_align_shift.
  generalize (round_up_align (headroom_base f)). intros r.
  replace (r + 4 * (m + j * 1073741824)) with (r + 4 * m + j * int_modulus)
    by (unfold int_modulus; ring).
  apply int_wrap_add_mul.
Qed.

(** Reading a field of a frame that is given by its seven fields. *)
Ltac frame_fields :=
  cbn [link_mtu mss_fix link_mtu_dynamic extra_frame extra_buffer extra_tun
       extra_link].

Ltac frame_fields_in H :=
  cbn [link_mtu mss_fix link_mtu_dynamic extra_frame extra_buffer extra_tun
       extra_link] in H.

(** X1.  [frame_remove_from_extra_frame] undoes [frame_add_to_extra_frame],
    and the other way round, for every amount, also when the value in
    between wraps around: the frame is the one there was before. *)
Theorem frame_extra_frame_add_remove (f : frame) (n : Z) :
  in_int (extra_frame f) ->
  frame_remove_from_extra_frame (frame_add_to_extra_frame f n) n = f
  /\ frame_add_to_extra_frame (frame_remove_from_extra_frame f n) n = f.
Proof.
  intros Hf. destruct f as [lm mf lmd ef eb et el]. frame_fields_in Hf.
  unfold frame_remove_from_extra_frame, frame_add_to_extra_frame. frame_fields.
  rewrite (int_add_unsigned_eq ef n), (int_sub_unsigned_eq ef n).
  rewrite (int_sub_unsigned_eq (int_wrap (ef + n)) n).
  rewrite (int_add_unsigned_eq (int_wrap (ef - n)) n).
  rewrite (int_wrap_idem_sub (ef + n) n), (int_wrap_idem_add (ef - n) n).
  replace (ef + n - n) with ef by lia. replace (ef - n + n) with ef by lia.
  rewrite (int_wrap_small ef Hf). split; reflexivity.
Qed.

Lemma frame_extra_frame_add_remove_witness :
  frame_remove_from_extra_frame (frame_add_to_extra_frame frame_c6 4294967295)
    4294967295 = frame_c6.
Proof.
  apply (frame_extra_frame_add_remove frame_c6 4294967295).
  vm_compute. split; discriminate.
Defined.

Lemma frame_add_to_extra_frame_twice (f : frame) (a b : Z) :
  frame_add_to_extra_frame (frame_add_to_extra_frame f a) b
  = frame_add_to_extra_frame f (a + b).
Proof.
  unfold frame_add_to_extra_frame. frame_fields. f_equal.
  rewrite (int_add_unsigned_eq (extra_frame f) a).
  rewrite (int_add_unsigned_eq (int_wrap (extra_frame f + a)) b).
  rewrite (int_add_unsigned_eq (extra_frame f) (a + b)).
  rewrite (int_wrap_idem_add (extra_frame f + a) b). f_equal. lia.
Qed.

(** X2.  The processing steps may register their overheads one by one and
    in any order: a run of calls of [frame_add_to_extra_frame] is one call
    with the total, and as long as the total fits in an [int] the field is
    the exact sum. *)
Theorem frame_add_to_extra_frame_total (f : frame) (l : list Z) :
  in_int (extra_frame f) ->
  fold_left frame_add_to_extra_frame l f
  = frame_add_to_extra_frame f (overhead_total l)
  /\ (in_int (extra_frame f + overhead_total l) ->
      extra_frame (fold_left frame_add_to_extra_frame l f)
      = extra_frame f + overhead_total l).
Proof.
  intros Hf.
  assert (E : fold_left frame_add_to_extra_frame l f
              = frame_add_to_extra_frame f (overhead_total l)).
  { revert f Hf. induction l as [|a l IH]; intros f Hf.
    - cbn [fold_left overhead_total fold_right].
      destruct f as [lm mf lmd ef eb et el]. frame_fields_in Hf.
      unfold frame_add_to_extra_frame. frame_fields.
      rewrite int_add_unsigned_eq, Z.add_0_r, (int_wrap_small ef Hf). reflexivity.
    - cbn [fold_left overhead_total fold_right]. rewrite IH.
      + apply frame_add_to_extra_frame_twice.
      + unfold frame_add_to_extra_frame. frame_fields.
        rewrite int_add_unsigned_eq. apply int_wrap_range. }
  split; [exact E|].
  intros Hfit. rewrite E. unfold frame_add_to_extra_frame. frame_fields.
  rewrite int_add_unsigned_eq.
  now apply int_wrap_small.
Qed.

Lemma frame_add_to_extra_frame_total_witness :
  extra_frame (fold_left frame_add_to_extra_frame [4; 16; 20; 1] frame_c5) = 41 + 41.
Proof.
  apply (frame_add_to_extra_frame_total frame_c5 [4; 16; 20; 1]);
    vm_compute; split; discriminate.
Defined.

(** X3.  A frame with more overhead never gets less headroom: when both
    bases fit, [frame_headroom] is monotone in the sum of the four
    overheads. *)
Theorem frame_headroom_monotone (f g : frame) :
  INT_MIN <= headroom_base f ->
  headroom_base f <= headroom_base g ->
  headroom_base g <= INT_MAX - 3 ->
  frame_headroom f <= frame_headroom g.
Proof.
  intros Hlo Hle Hhi.
  rewrite (frame_headroom_exact f), (frame_headroom_exact g) by lia.
  now apply round_up_align_monotone.
Qed.

Lemma frame_headroom_monotone_witness :
  frame_headroom frame_c5 <= frame_headroom (frame_add_to_extra_link frame_c5 10).
Proof.
  apply (frame_headroom_monotone frame_c5 (frame_add_to_extra_link frame_c5 10));
    vm_compute; discriminate.
Defined.

(** X4.  Registering a multiple of 4 more bytes, through any of the four
    overhead adders, moves the headroom by exactly that many bytes (in [int]
    arithmetic); [frame_add_to_link_mtu] leaves the headroom alone. *)
Theorem frame_headroom_add_aligned (f : frame) (m n : Z) :
  frame_headroom (frame_add_to_extra_frame f (4 * m))
  = int_add (frame_headroom f) (4 * m)
  /\ frame_headroom (frame_add_to_extra_buffer f (4 * m))
     = int_add (frame_headroom f) (4 * m)
  /\ frame_headroom (frame_add_to_extra_tun f (4 * m))
     = int_add (frame_headroom f) (4 * m)
  /\ frame_headroom (frame_add_to_extra_link f (4 * m))
     = int_add (frame_headroom f) (4 * m)
  /\ frame_headroom (frame_add_to_link_mtu f n) = frame_headroom f.
Proof.
  split; [|split; [|split; [|split]]].
  - destruct (int_wrap_eqm (extra_frame f + 4 * m)) as [j Hj].
    apply (frame_headroom_shift f _ m j).
    unfold headroom_base, frame_add_to_extra_frame. frame_fields.
    rewrite int_add_unsigned_eq, Hj. lia.
  - destruct (int_wrap_eqm (extra_buffer f + 4 * m)) as [j Hj].
    apply (frame_headroom_shift f _ m j).
    unfold headroom_base, frame_add_to_extra_buffer, int_add. frame_fields.
    rewrite Hj. lia.
  - destruct (int_wrap_eqm (extra_tun f + 4 * m)) as [j Hj].
    apply (frame_headroom_shift f _ m j).
    unfold headroom_base, frame_add_to_extra_tun, int_add. frame_fields.
    rewrite Hj. lia.
  - destruct (int_wrap_eqm (extra_link f + 4 * m)) as [j Hj].
    apply (frame_headroom_shift f _ m j).
    unfold headroom_base, frame_add_to_extra_link, int_add. frame_fields.
    rewrite Hj. lia.
  - unfold frame_headroom, FRAME_HEADROOM_BASE, TUN_LINK_DELTA,
      frame_add_to_link_mtu.
    frame_fields. reflexivity.
Qed.

(** X5.  The sizes derived from a frame hang together, whatever wraps in
    between: the tun MTU plus the tun-to-link delta is the link MTU, the tun
    MTU plus [extra_tun] is the payload size, and the largest link
    read exceeds the largest tun read by [extra_frame + extra_link]. *)
Theorem frame_sizes_consistent (f : frame) :
  in_int (link_mtu f) ->
  int_add (TUN_MTU_SIZE f) (TUN_LINK_DELTA f) = EXPANDED_SIZE f
  /\ int_add (TUN_MTU_SIZE f) (extra_tun f) = PAYLOAD_SIZE f
  /\ int_sub (MAX_RW_SIZE_LINK f) (MAX_RW_SIZE_TUN f)
     = int_wrap (extra_frame f + extra_link f).
Proof.
  intros Hl.
  unfold TUN_MTU_SIZE, TUN_LINK_DELTA, EXPANDED_SIZE, PAYLOAD_SIZE,
    MAX_RW_SIZE_LINK, MAX_RW_SIZE_TUN, PAYLOAD_SIZE, EXPANDED_SIZE,
    int_add, int_sub.
  split; [|split].
  - rewrite (int_wrap_idem_add (link_mtu f - int_wrap (extra_frame f + extra_tun f))).
    generalize (int_wrap (extra_frame f + extra_tun f)). intros d.
    replace (link_mtu f - d + d) with (link_mtu f) by ring.
    apply int_wrap_small. exact Hl.
  - rewrite (int_wrap_idem_add (link_mtu f - int_wrap (extra_frame f + extra_tun f))).
    destruct (int_wrap_eqm (extra_frame f + extra_tun f)) as [k ->].
    replace (link_mtu f - (extra_frame f + extra_tun f + k * int_modulus)
             + extra_tun f)
      with (link_mtu f - extra_frame f + (- k) * int_modulus) by ring.
    apply int_wrap_add_mul.
  - rewrite (int_wrap_idem_sub (link_mtu f + extra_link f)).
    rewrite (int_wrap_idem_sub_r (link_mtu f + extra_link f)).
    f_equal. ring.
Qed.

Lemma frame_sizes_consistent_witness :
  int_add (TUN_MTU_SIZE frame_c5) (TUN_LINK_DELTA frame_c5) = 1500.
Proof.
  apply (frame_sizes_consistent frame_c5). vm_compute. split; discriminate.
Defined.

(** On a bounded frame every macro has its mathematical value. *)
Lemma frame_bounded_values (f : frame) :
  frame_bounded f ->
  TUN_LINK_DELTA f = extra_frame f + extra_tun f
  /\ TUN_MTU_SIZE f = link_mtu f - extra_frame f - extra_tun f
  /\ PAYLOAD_SIZE f = link_mtu f - extra_frame f
  /\ MAX_RW_SIZE_LINK f = link_mtu f + extra_link f
  /\ EXPANDED_SIZE_MIN f = TUN_MTU_MIN + extra_frame f + extra_tun f
  /\ FRAME_HEADROOM_BASE f = headroom_base f
  /\ BUF_SIZE f
     = link_mtu f - extra_frame f - extra_tun f + 2 * headroom_base f
  /\ frame_headroom f = round_up_align (headroom_base f).
Proof.
  intros (Hl & Hf & Hb & Ht & Hk). unfold FRAME_FIELD_MAX in *.
  assert (small : forall z, -2147483648 <= z <= 2147483647 -> int_wrap z = z).
  { intros z Hz. apply int_wrap_small. exact Hz. }
  assert (Ed : TUN_LINK_DELTA f = extra_frame f + extra_tun f).
  { unfold TUN_LINK_DELTA, int_add. apply small. lia. }
  assert (Et : TUN_MTU_SIZE f = link_mtu f - extra_frame f - extra_tun f).
  { unfold TUN_MTU_SIZE, int_sub. rewrite Ed, small; lia. }
  assert (Eb : FRAME_HEADROOM_BASE f = headroom_base f).
  { rewrite FRAME_HEADROOM_BASE_wrap. apply small. unfold headroom_base. lia. }
  split; [exact Ed|]. split; [exact Et|].
  split; [unfold PAYLOAD_SIZE, int_sub; apply small; lia|].
  split; [unfold MAX_RW_SIZE_LINK, EXPANDED_SIZE, int_add; apply small; lia|].
  split.
  { unfold EXPANDED_SIZE_MIN, int_add, TUN_MTU_MIN. rewrite Ed, small; lia. }
  split; [exact Eb|]. split.
  - unfold BUF_SIZE, int_add. rewrite Et, Eb.
    rewrite (small (headroom_base f * 2)) by (unfold headroom_base; lia).
    rewrite small; unfold headroom_base; lia.
  - apply frame_headroom_exact. unfold headroom_base, INT_MIN, INT_MAX. lia.
Qed.

(** X6.  On a bounded frame the tun MTU reaches [TUN_MTU_MIN] exactly when
    the link MTU reaches [EXPANDED_SIZE_MIN]. *)
Theorem expanded_size_min_iff (f : frame) :
  frame_bounded f ->
  (TUN_MTU_MIN <= TUN_MTU_SIZE f <-> EXPANDED_SIZE_MIN f <= EXPANDED_SIZE f).
Proof.
  intros Hb.
  destruct (frame_bounded_values f Hb) as (_ & Et & _ & _ & Em & _).
  rewrite Et, Em. unfold EXPANDED_SIZE, TUN_MTU_MIN. lia.
Qed.

Lemma expanded_size_min_iff_witness :
  EXPANDED_SIZE_MIN frame_c5 <= EXPANDED_SIZE frame_c5.
Proof.
  apply (expanded_size_min_iff frame_c5).
  - vm_compute. repeat split; discriminate.
  - vm_compute. discriminate.
Defined.

(** X7.  What a buffer of [BUF_SIZE] bytes has left after the aligned
    headroom and the largest read: on a bounded frame, [extra_buffer] minus
    the alignment padding after a link read, and [extra_frame + extra_buffer
    + extra_link] minus the padding after a tun read.  So both reads fit
    behind [frame_headroom] whenever [extra_buffer] is at least 3, and they
    always fit behind the unaligned [FRAME_HEADROOM_BASE]. *)
Theorem buf_size_slack (f : frame) :
  frame_bounded f ->
  BUF_SIZE f - (frame_headroom f + MAX_RW_SIZE_LINK f)
  = extra_buffer f - (- headroom_base f) mod 4
  /\ BUF_SIZE f - (frame_headroom f + MAX_RW_SIZE_TUN f)
     = extra_frame f + extra_buffer f + extra_link f - (- headroom_base f) mod 4
  /\ (3 <= extra_buffer f ->
      frame_headroom f + MAX_RW_SIZE_LINK f <= BUF_SIZE f
      /\ frame_headroom f + MAX_RW_SIZE_TUN f <= BUF_SIZE f)
  /\ FRAME_HEADROOM_BASE f + MAX_RW_SIZE_LINK f <= BUF_SIZE f
  /\ FRAME_HEADROOM_BASE f + MAX_RW_SIZE_TUN f <= BUF_SIZE f.
Proof.
  intros Hb.
  destruct (frame_bounded_values f Hb) as (_ & _ & Ep & El & _ & Eb & Es & Eh).
  destruct Hb as (Hl & Hf & Hbf & Ht & Hk).
  unfold MAX_RW_SIZE_TUN. rewrite Ep, El, Eb, Es, Eh.
  unfold round_up_align, PAYLOAD_ALIGN.
  pose proof (Z.mod_pos_bound (- headroom_base f) 4 ltac:(lia)) as Hm.
  generalize dependent ((- headroom_base f) mod 4). intros d Hm.
  unfold headroom_base. repeat split; lia.
Qed.

Lemma buf_size_slack_witness :
  frame_headroom frame_c5 + MAX_RW_SIZE_LINK frame_c5 <= BUF_SIZE frame_c5.
Proof.
  assert (Hb : frame_bounded frame_c5)
    by (vm_compute; repeat split; discriminate).
  destruct (buf_size_slack frame_c5 Hb) as (_ & _ & H & _).
  apply H. vm_compute. discriminate.
Defined.

(** X8.  Raising the link MTU by [n] raises the tun MTU, the payload size,
    the largest link read and the buffer size by [n] (in [int] arithmetic);
    raising [extra_tun] by [n] lowers the tun MTU by [n] and leaves the
    payload size alone. *)
Theorem frame_add_moves_sizes (f : frame) (n : Z) :
  TUN_MTU_SIZE (frame_add_to_link_mtu f n) = int_add (TUN_MTU_SIZE f) n
  /\ PAYLOAD_SIZE (frame_add_to_link_mtu f n) = int_add (PAYLOAD_SIZE f) n
  /\ MAX_RW_SIZE_LINK (frame_add_to_link_mtu f n)
     = int_add (MAX_RW_SIZE_LINK f) n
  /\ BUF_SIZE (frame_add_to_link_mtu f n) = int_add (BUF_SIZE f) n
  /\ TUN_MTU_SIZE (frame_add_to_extra_tun f n) = int_sub (TUN_MTU_SIZE f) n
  /\ PAYLOAD_SIZE (frame_add_to_extra_tun f n) = PAYLOAD_SIZE f.
Proof.
  assert (Et : TUN_MTU_SIZE (frame_add_to_link_mtu f n)
               = int_add (TUN_MTU_SIZE f) n).
  { unfold TUN_MTU_SIZE, TUN_LINK_DELTA, frame_add_to_link_mtu, int_sub.
    frame_fields. generalize (int_add (extra_frame f) (extra_tun f)). intros d.
    unfold int_add.
    rewrite (int_wrap_idem_sub (link_mtu f + n) d).
    rewrite (int_wrap_idem_add (link_mtu f - d) n). f_equal. ring. }
  split; [exact Et|]. split; [|split; [|split; [|split]]].
  - unfold PAYLOAD_SIZE, frame_add_to_link_mtu, int_sub, int_add. frame_fields.
    rewrite (int_wrap_idem_sub (link_mtu f + n) (extra_frame f)).
    rewrite (int_wrap_idem_add (link_mtu f - extra_frame f) n). f_equal. ring.
  - unfold MAX_RW_SIZE_LINK, EXPANDED_SIZE, frame_add_to_link_mtu, int_add.
    frame_fields.
    rewrite (int_wrap_idem_add (link_mtu f + n) (extra_link f)).
    rewrite (int_wrap_idem_add (link_mtu f + extra_link f) n). f_equal. ring.
  - assert (Eb : FRAME_HEADROOM_BASE (frame_add_to_link_mtu f n)
                 = FRAME_HEADROOM_BASE f).
    { unfold FRAME_HEADROOM_BASE, TUN_LINK_DELTA, frame_add_to_link_mtu.
      frame_fields. reflexivity. }
    unfold BUF_SIZE. rewrite Et, Eb.
    generalize (int_wrap (FRAME_HEADROOM_BASE f * 2)). intros h.
    generalize (TUN_MTU_SIZE f). intros t. unfold int_add.
    rewrite (int_wrap_idem_add (t + n) h), (int_wrap_idem_add (t + h) n).
    f_equal. ring.
  - unfold TUN_MTU_SIZE, TUN_LINK_DELTA, frame_add_to_extra_tun, int_sub, int_add.
    frame_fields.
    destruct (int_wrap_eqm (extra_tun f + n)) as [k1 ->].
    destruct (int_wrap_eqm (extra_frame f + (extra_tun f + n + k1 * int_modulus)))
      as [k2 ->].
    destruct (int_wrap_eqm (extra_frame f + extra_tun f)) as [k3 ->].
    destruct (int_wrap_eqm
                (link_mtu f - (extra_frame f + extra_tun f + k3 * int_modulus)))
      as [k4 ->].
    transitivity (int_wrap (link_mtu f - extra_frame f - extra_tun f - n)).
    + replace (link_mtu f
               - (extra_frame f + (extra_tun f + n + k1 * int_modulus)
                  + k2 * int_modulus))
        with (link_mtu f - extra_frame f - extra_tun f - n
              + (- k1 - k2) * int_modulus) by ring.
      apply int_wrap_add_mul.
    + replace (link_mtu f - (extra_frame f + extra_tun f + k3 * int_modulus)
               + k4 * int_modulus - n)
        with (link_mtu f - extra_frame f - extra_tun f - n
              + (k4 - k3) * int_modulus) by ring.
      symmetry. apply int_wrap_add_mul.
  - unfold PAYLOAD_SIZE, frame_add_to_extra_tun. frame_fields. reflexivity.
Qed.

(** ** Sequences of DCO calls *)

Lemma dco_run_cases (world : Type) (op : Dco.dco_op) (w : world) :
  Dco.run world op w
  = if Dco.asserts_false op then Fatal else Returned (Dco.stub_value op, w).
Proof. destruct op; reflexivity. Qed.

(** X9.  Without [ENABLE_DCO], a sequence of DCO calls that avoids
    [dco_do_read], [dco_do_write] and [dco_update_keys] returns the fixed
    values of its stubs and leaves the world as it was, however long it is;
    a sequence that contains one of the three ends in the fatal assertion. *)
Theorem dco_run_all (world : Type) (ops : list Dco.dco_op) (w : world) :
  (existsb Dco.asserts_false ops = false ->
   DcoSeq.run_all world ops w = Returned (map Dco.stub_value ops, w))
  /\ (existsb Dco.asserts_false ops = true ->
      DcoSeq.run_all world ops w = Fatal).
Proof.
  induction ops as [|op rest [IHok IHbad]]; cbn [existsb map DcoSeq.run_all].
  - split; [reflexivity|discriminate].
  - rewrite dco_run_cases.
    destruct (Dco.asserts_false op); cbn [orb bind].
    + split; [discriminate|reflexivity].
    + cbn [snd fst]. split; intros H.
      * rewrite (IHok H). reflexivity.
      * rewrite (IHbad H). reflexivity.
Qed.

Lemma dco_run_all_witness :
  DcoSeq.run_all unit
    [Dco.Op_dco_available 0; Dco.Op_ovpn_dco_init 1;
     Dco.Op_open_tun_dco "tun0"; Dco.Op_dco_get_supported_ciphers] tt
  = Returned ([Dco.RBool false; Dco.RBool true; Dco.RInt 0; Dco.RStr ""], tt)
  /\ DcoSeq.run_all unit
       [Dco.Op_ovpn_dco_init 1; Dco.Op_dco_update_keys; Dco.Op_close_tun_dco] tt
     = Fatal.
Proof.
  split.
  - apply (proj1 (dco_run_all unit
                    [Dco.Op_dco_available 0; Dco.Op_ovpn_dco_init 1;
                     Dco.Op_open_tun_dco "tun0"; Dco.Op_dco_get_supported_ciphers]
                    tt)).
    reflexivity.
  - apply (proj2 (dco_run_all unit
                    [Dco.Op_ovpn_dco_init 1; Dco.Op_dco_update_keys;
                     Dco.Op_close_tun_dco] tt)).
    reflexivity.
Defined.

(** ** Opcode names identify opcodes *)

Lemma packet_opcode_name_named (op : Z) :
  1 <= op <= 10 -> packet_opcode_name op <> "P_???"%string.
Proof.
  intros H E. pose proof (opcode_in_1_10 op H) as Hin. cbn in Hin.
  repeat (destruct Hin as [<-|Hin]; [vm_compute in E; discriminate|]).
  exact Hin.
Qed.

(** X10.  Two integers have the same opcode name only if they are the same
    opcode or both lie outside 1..10; and every legal opcode has a name of
    its own, never "P_???". *)
Theorem packet_opcode_name_injective (a b : Z) :
  (packet_opcode_name a = packet_opcode_name b ->
   a = b \/ ((a < 1 \/ 10 < a) /\ (b < 1 \/ 10 < b)))
  /\ (opcode_legal a = true -> packet_opcode_name a <> "P_???"%string).
Proof.
  split.
  - intros E.
    destruct (Z_lt_le_dec a 1) as [Ha|Ha1].
    { right. split; [now left|].
      rewrite (packet_opcode_name_default a (or_introl Ha)) in E.
      destruct (Z_lt_le_dec b 1); [now left|].
      destruct (Z_lt_le_dec 10 b); [now right|].
      exfalso. apply (packet_opcode_name_named b); [lia|]. now symmetry. }
    destruct (Z_lt_le_dec 10 a) as [Ha|Ha2].
    { right. split; [now right|].
      rewrite (packet_opcode_name_default a (or_intror Ha)) in E.
      destruct (Z_lt_le_dec b 1); [now left|].
      destruct (Z_lt_le_dec 10 b); [now right|].
      exfalso. apply (packet_opcode_name_named b); [lia|]. now symmetry. }
    destruct (Z_lt_le_dec b 1) as [Hb|Hb1].
    { exfalso. rewrite (packet_opcode_name_default b (or_introl Hb)) in E.
      now apply (packet_opcode_name_named a). }
    destruct (Z_lt_le_dec 10 b) as [Hb|Hb2].
    { exfalso. rewrite (packet_opcode_name_default b (or_intror Hb)) in E.
      now apply (packet_opcode_name_named a). }
    left.
    pose proof (opcode_in_1_10 a (conj Ha1 Ha2)) as Hina.
    pose proof (opcode_in_1_10 b (conj Hb1 Hb2)) as Hinb.
    cbn in Hina, Hinb. clear Ha1 Ha2 Hb1 Hb2.
    repeat (destruct Hina as [<-|Hina];
            [repeat (destruct Hinb as [<-|Hinb];
                     [first [reflexivity | vm_compute in E; discriminate]|]);
             contradiction|]).
    contradiction.
  - intros Hl. apply packet_opcode_name_named.
    apply opcode_legal_iff in Hl. lia.
Qed.

Lemma packet_opcode_name_injective_witness :
  packet_opcode_name 10 <> "P_???"%string.
Proof.
  apply (packet_opcode_name_injective 10 10). reflexivity.
Defined.

(** X11.  The legal opcodes are the named opcodes without the two hard
    resets of key-method 1: an opcode lies in [P_FIRST_OPCODE ..
    P_LAST_OPCODE] exactly when [packet_opcode_name] knows it and it is
    neither [P_CONTROL_HARD_RESET_CLIENT_V1] nor
    [P_CONTROL_HARD_RESET_SERVER_V1]. *)
Theorem opcode_legal_iff_named (op : Z) :
  opcode_legal op = true
  <-> packet_opcode_name op <> "P_???"%string
      /\ op <> P_CONTROL_HARD_RESET_CLIENT_V1
      /\ op <> P_CONTROL_HARD_RESET_SERVER_V1.
Proof.
  unfold P_CONTROL_HARD_RESET_CLIENT_V1, P_CONTROL_HARD_RESET_SERVER_V1.
  rewrite opcode_legal_iff. split.
  - intros H. split; [apply packet_opcode_name_named; lia | lia].
  - intros (Hn & H1 & H2).
    destruct (Z_lt_le_dec op 1) as [Hlo|Hlo].
    { exfalso. apply Hn. apply packet_opcode_name_default. now left. }
    destruct (Z_lt_le_dec 10 op) as [Hhi|Hhi].
    { exfalso. apply Hn. apply packet_opcode_name_default. now right. }
    lia.
Qed.

Lemma opcode_legal_iff_named_witness :
  opcode_legal P_DATA_V2 = true.
Proof.
  apply (opcode_legal_iff_named P_DATA_V2).
  vm_compute. repeat split; discriminate.
Defined.
